(** * Control logic of [traditional_example.py]

    A shallow embedding of the experiment script: the checkpoint-gated
    training loop ([train_model]), the checkpoint gate
    ([verify_checkpoint]), the feature-extraction / classifier-evaluation
    orchestrator ([run_cifar100_experiment]) and the run driver ([main]).

    Python floats that the script only compares ([acc], [best_acc],
    classifier accuracies) are finite; a finite float denotes a rational
    number and [<], [>] on finite floats agree with the order of the
    rationals, so these values are carried as [Q].  The learning rate is
    computed by float multiplication and is carried as a binary64
    [float].  The network, the datasets, the optimizer update and the
    downstream classifiers are opaque collaborators: their outcomes are
    read from an environment record, and each of them may raise. *)

From Stdlib Require Import QArith Qminmax ZArith List String Bool Lia Sorted.
From Stdlib Require Import Floats.
Import ListNotations.

Set Warnings "-inexact-float".

(** ** Exceptions, results and the effect monad *)

Module Py.

(** What a call can raise.  [except Exception] catches the first kind
    only; [KeyboardInterrupt] derives from [BaseException]. *)
Inductive exn : Type :=
| Exception (name : string)
| KeyboardInterrupt.

Inductive result (A : Type) : Type :=
| Ok (a : A)
| Raise (e : exn).

Arguments Ok {A} a.
Arguments Raise {A} e.

(** [x > y] and [x < y] on finite floats. *)
Definition Qltb (x y : Q) : bool :=
  match x ?= y with
  | Lt => true
  | _ => false
  end.

Definition Qgtb (x y : Q) : bool := Qltb y x.

(** [min(a, b)] on integers, [range(n)] and [len]. *)
Definition min (a b : Z) : Z := Z.min a b.

Definition range (n : Z) : list Z := map Z.of_nat (seq 0 (Z.to_nat n)).

Definition len {A : Type} (l : list A) : Z := Z.of_nat (List.length l).

(** A [dict] keeps insertion order; assigning to a present key replaces
    its value in place. *)
Definition dict (V : Type) : Type := list (string * V).

Fixpoint dict_set {V : Type} (k : string) (v : V) (d : dict V) : dict V :=
  match d with
  | [] => [(k, v)]
  | (k', v') :: d' =>
      if String.eqb k k' then (k, v) :: d' else (k', v') :: dict_set k v d'
  end.

Definition values {V : Type} (d : dict V) : list V := map snd d.

End Py.

Import Py.

(** ** Checkpoint records, the file slot and the observable trace *)

Definition CHECKPOINT_PATH : string := "checkpoints/wideresnet/wideresnet_best.pt".

(** The [state] dictionary of lines 111-115.  The parameters are opaque;
    they are identified by the number of training passes that produced
    them. *)
Record checkpoint : Type := {
  model_state_dict : nat;
  acc : Q;
  epoch : nat
}.

(** What sits at [CHECKPOINT_PATH]: a file that has been opened for
    writing and not completed, or a complete record. *)
Inductive file : Type :=
| Partial
| Saved (r : checkpoint).

Record metrics : Type := {
  accuracy : Q;
  train_time : Q;
  inference_time : Q
}.

Inductive level : Type := INFO | ERROR.

(** One constructor per [logger] call site. *)
Inductive message : Type :=
| MsgTrainingFromScratch
| MsgValAcc (epoch1 : nat) (a : Q) (current_lr : float)
| MsgSaving (a : Q)
| MsgBestAccuracy (best : Q)
| MsgNotFound
| MsgTrainFailed
| MsgStep1 (subset_size : Z)
| MsgTraining (clf_name : string)
| MsgResultsHeader
| MsgResult (clf_name : string) (m : metrics)
| MsgPoorResults
| MsgError (e : exn)
| MsgTraceback.

(** Effects in program order: log records, file-system operations and
    the calls into the training collaborators. *)
Inductive event : Type :=
| EvLog (lvl : level) (m : message)
| EvMkdir (path : string)
| EvOpenW (path : string)
| EvWriteClose (path : string) (r : checkpoint)
| EvRename (src dst : string)
| EvTrainPass (epoch : nat) (lr : float)
| EvValPass (epoch : nat)
| EvSchedulerStep.

Record world : Type := {
  ckpt_file : option file;
  trace : list event
}.

Module Eff.

Definition M (A : Type) : Type := world -> result A * world.

Definition ret {A : Type} (a : A) : M A := fun w => (Ok a, w).

Definition bind {A B : Type} (m : M A) (k : A -> M B) : M B :=
  fun w =>
    match m w with
    | (Ok a, w') => k a w'
    | (Raise e, w') => (Raise e, w')
    end.

(** The outcome of a collaborator call. *)
Definition lift {A : Type} (r : result A) : M A := fun w => (r, w).

Definition emit (ev : event) : M unit :=
  fun w => (Ok tt, {| ckpt_file := ckpt_file w; trace := trace w ++ [ev] |}).

Definition log (lvl : level) (m : message) : M unit := emit (EvLog lvl m).

(** [try: body except Exception as e: handler(e)]. *)
Definition try_except {A : Type} (body : M A) (handler : exn -> M A) : M A :=
  fun w =>
    match body w with
    | (Raise (Exception name), w') => handler (Exception name) w'
    | other => other
    end.

(** [for x in xs:] with the loop-carried locals threaded as [s]. *)
Fixpoint foldM {A S : Type} (body : S -> A -> M S) (xs : list A) (s : S) : M S :=
  match xs with
  | [] => ret s
  | x :: xs' => bind (body s x) (foldM body xs')
  end.

Fixpoint run_steps (steps : list (M unit)) : M unit :=
  match steps with
  | [] => ret tt
  | s :: steps' => bind s (fun _ => run_steps steps')
  end.

End Eff.

Import Eff.

Declare Scope eff_scope.
Delimit Scope eff_scope with eff.
Notation "x <- m ;; k" := (bind m (fun x => k))
  (at level 61, m at next level, right associativity) : eff_scope.
Notation "m ;; k" := (bind m (fun _ => k))
  (at level 61, right associativity) : eff_scope.
Open Scope eff_scope.

(** ** File-system operations on the checkpoint path *)

(** [Path(CHECKPOINT_PATH).exists()]. *)
Definition path_exists : M bool :=
  fun w =>
    (Ok match ckpt_file w with Some _ => true | None => false end, w).

(** [Path(CHECKPOINT_PATH).parent.mkdir(parents=True, exist_ok=True)]. *)
Definition mkdir_parent : M unit := emit (EvMkdir "checkpoints/wideresnet").

Definition open_for_write : M unit :=
  fun w =>
    (Ok tt, {| ckpt_file := Some Partial;
               trace := trace w ++ [EvOpenW CHECKPOINT_PATH] |}).

Definition write_and_close (r : checkpoint) : M unit :=
  fun w =>
    (Ok tt, {| ckpt_file := Some (Saved r);
               trace := trace w ++ [EvWriteClose CHECKPOINT_PATH r] |}).

(** [torch.save(state, CHECKPOINT_PATH)]: the destination itself is
    opened for writing, then the serialised record is written into it. *)
Definition torch_save_steps (r : checkpoint) : list (M unit) :=
  [open_for_write; write_and_close r].

Definition torch_save (r : checkpoint) : M unit := run_steps (torch_save_steps r).

(** Lines 116-117, as the sequence of file-system steps they perform. *)
Definition checkpoint_write_steps (r : checkpoint) : list (M unit) :=
  mkdir_parent :: torch_save_steps r.

(** The world a process leaves behind when it dies after [k] steps of a
    checkpoint write. *)
Definition crash_after (k : nat) (r : checkpoint) (w : world) : world :=
  snd (run_steps (firstn k (checkpoint_write_steps r)) w).

(** ** The learning-rate schedule

    [optim.lr_scheduler.MultiStepLR] acting on the learning rate of the
    single parameter group of the optimizer. *)

Module Torch.

Record MultiStepLR : Type := {
  milestones : list Z;
  gamma : float;
  last_epoch : Z;
  lr : float
}.

(** [gamma ** n] for the number [n] of times a milestone is listed:
    [gamma ** 0] is [1.0] and [gamma ** 1] is [gamma] itself
    (multiplying by [1.0] is exact).  The milestones of line 47 are
    listed once each, so no other exponent arises there. *)
Fixpoint pow (g : float) (n : nat) : float :=
  match n with
  | O => 1%float
  | S n' => (g * pow g n')%float
  end.

(** [scheduler.step()]: advance [last_epoch]; when it lands on a
    milestone the rate is multiplied, in binary64, by [gamma] raised to
    the number of occurrences of that milestone, otherwise it is left
    as it is. *)
Definition step (s : MultiStepLR) : MultiStepLR :=
  let e := (last_epoch s + 1)%Z in
  {| milestones := milestones s;
     gamma := gamma s;
     last_epoch := e;
     lr := if existsb (Z.eqb e) (milestones s)
           then (lr s * pow (gamma s) (count_occ Z.eq_dec (milestones s) e))%float
           else lr s |}.

(** The constructor performs the initial step, from [last_epoch = -1]. *)
Definition new (base_lr : float) (ms : list Z) (g : float) : MultiStepLR :=
  step {| milestones := ms; gamma := g; last_epoch := (-1)%Z; lr := base_lr |}.

End Torch.

(** ** The collaborators *)

Record sample : Type := {
  image : nat;
  label : nat
}.

(** What [extract_features] returns: one feature vector and one label
    per sample. *)
Record extracted : Type := {
  features : list (list Q);
  labels : list nat
}.

(** Outcomes of the calls the script makes into code it does not own.
    [train_pass e] is the training pass of epoch [e] (lines 56-85) and
    [train_batches e] the number of batches the training stream yields
    in it; [val_pass e] is its validation pass up to the value bound to
    [acc] (lines 87-104); [get_dataset train with_transform] is
    [get_dataset("cifar100", train=..., transform=...)];
    [new_experiment subset_size] builds the [TraditionalExperiment] and
    yields the names in its [classifiers]; [train_and_evaluate] yields
    [(train_time, inference_time, accuracy)]. *)
Record env : Type := {
  setup_logging : result unit;
  get_dataset : bool -> bool -> result (list sample);
  get_model : result unit;
  train_pass : nat -> result unit;
  train_batches : nat -> nat;
  val_pass : nat -> result Q;
  new_experiment : Z -> result (list string);
  extract_features : list sample -> result extracted;
  train_and_evaluate : string -> extracted -> extracted -> result (Q * Q * Q)
}.

(** ** [train_model] *)

(** The locals the epoch loop carries: [best_acc], the scheduler with
    the optimizer's learning rate, the parameters of [model], and
    [current_lr], which line 78 binds inside the batch loop and which
    is unbound until a batch has been processed. *)
Record train_state : Type := {
  best_acc : Q;
  scheduler : Torch.MultiStepLR;
  model : nat;
  current_lr : option float
}.

Definition initial_state : train_state :=
  {| best_acc := 0;
     scheduler := Torch.new 0.1%float [60; 120; 160]%Z 0.2%float;
     model := 0;
     current_lr := None |}.

(** [current_lr] after the training pass of an epoch with [batches]
    batches: the optimizer's rate when a batch ran, and otherwise
    whatever an earlier epoch left. *)
Definition logged_lr (st : train_state) (batches : nat) : option float :=
  if (0 <? batches)%nat then Some (Torch.lr (scheduler st)) else current_lr st.

(** One iteration of [for epoch in range(epochs)].  Line 105 reads
    [current_lr]; when no batch has ever run it raises
    [UnboundLocalError], before anything is logged. *)
Definition epoch_body (E : env) (st : train_state) (epoch : nat) : M train_state :=
  emit (EvTrainPass epoch (Torch.lr (scheduler st))) ;;
  lift (train_pass E epoch) ;;
  let current_lr' := logged_lr st (train_batches E epoch) in
  let model' := S (model st) in
  emit (EvValPass epoch) ;;
  acc <- lift (val_pass E epoch) ;;
  rate <- lift (match current_lr' with
                | Some rate => Ok rate
                | None => Raise (Exception "UnboundLocalError")
                end) ;;
  log INFO (MsgValAcc (epoch + 1) acc rate) ;;
  best_acc' <-
    (if Qgtb acc (best_acc st) then
       log INFO (MsgSaving acc) ;;
       let state := {| model_state_dict := model'; acc := acc; epoch := epoch |} in
       mkdir_parent ;;
       torch_save state ;;
       ret acc
     else ret (best_acc st)) ;;
  emit EvSchedulerStep ;;
  ret {| best_acc := best_acc';
         scheduler := Torch.step (scheduler st);
         model := model';
         current_lr := current_lr' |}.

(** The loop of line 55 alone: the locals once [epochs] iterations have
    run, starting from the locals of lines 46-53. *)
Definition epoch_loop (E : env) (epochs : nat) : M train_state :=
  foldM (epoch_body E) (seq 0 epochs) initial_state.

Definition train_model (E : env) (epochs : nat) : M bool :=
  log INFO MsgTrainingFromScratch ;;
  st <- epoch_loop E epochs ;;
  log INFO (MsgBestAccuracy (best_acc st)) ;;
  ret (Qgtb (best_acc st) 50).

(** ** [verify_checkpoint] *)

Definition verify_checkpoint (E : env) : M bool :=
  found <- path_exists ;;
  if negb found then
    log INFO MsgNotFound ;;
    _ <- lift (get_dataset E true true) ;;
    _ <- lift (get_dataset E false true) ;;
    lift (get_model E) ;;
    trained <- train_model E 200 ;;
    if negb trained then
      log ERROR MsgTrainFailed ;;
      ret false
    else ret true
  else ret true.

(** ** [run_cifar100_experiment] *)

(** [torch.utils.data.Subset(dataset, indices)]: the samples at the
    given indices, in that order. *)
Definition Subset {A : Type} (dataset : list A) (indices : list Z) : list A :=
  flat_map (fun i => match nth_error dataset (Z.to_nat i) with
                     | Some x => [x]
                     | None => []
                     end) indices.

(** Lines 204-211: the two dataset views.  [if subset_size:] holds for
    every integer but [0]. *)
Definition dataset_views {A : Type} (subset_size : Z)
    (train_dataset test_dataset : list A) : list A * list A :=
  if (subset_size =? 0)%Z then (train_dataset, test_dataset)
  else (Subset train_dataset (range (min subset_size (len train_dataset))),
        Subset test_dataset (range (min (subset_size / 5) (len test_dataset)))).

Definition make_metrics (r : Q * Q * Q) : metrics :=
  let '(train_time, inference_time, accuracy) := r in
  {| accuracy := accuracy;
     train_time := train_time;
     inference_time := inference_time |}.

(** Lines 218-228: fit and score every configured classifier. *)
Definition evaluate_classifiers (E : env) (classifiers : list string)
    (train_f test_f : extracted) : M (dict metrics) :=
  foldM (fun results clf_name =>
           log INFO (MsgTraining clf_name) ;;
           r <- lift (train_and_evaluate E clf_name train_f test_f) ;;
           ret (dict_set clf_name (make_metrics r) results))
        classifiers [].

(** Lines 231-237. *)
Definition log_results (results : dict metrics) : M unit :=
  log INFO MsgResultsHeader ;;
  foldM (fun _ kv => log INFO (MsgResult (fst kv) (snd kv))) results tt.

(** Line 240: [all(metrics["accuracy"] < 10.0 for metrics in results.values())]. *)
Definition all_below_floor (results : dict metrics) : bool :=
  forallb (fun m => Qltb (accuracy m) 10) (values results).

(** The body of the [try] statement, lines 190-246. *)
Definition experiment_body (E : env) (subset_size : Z) : M bool :=
  classifiers <- lift (new_experiment E subset_size) ;;
  train_dataset <- lift (get_dataset E true false) ;;
  test_dataset <- lift (get_dataset E false false) ;;
  let views := dataset_views subset_size train_dataset test_dataset in
  train_f <- lift (extract_features E (fst views)) ;;
  test_f <- lift (extract_features E (snd views)) ;;
  results <- evaluate_classifiers E classifiers train_f test_f ;;
  log_results results ;;
  if all_below_floor results then
    log ERROR MsgPoorResults ;;
    ret false
  else ret true.

(** The [except Exception as e] clause, lines 248-254. *)
Definition experiment_handler (e : exn) : M bool :=
  log ERROR (MsgError e) ;;
  log ERROR MsgTraceback ;;
  log ERROR MsgPoorResults ;;
  ret false.

Definition run_cifar100_experiment (E : env) (subset_size : Z) : M bool :=
  log INFO (MsgStep1 subset_size) ;;
  verified <- verify_checkpoint E ;;
  if negb verified then ret false
  else try_except (experiment_body E subset_size) experiment_handler.

(** ** [main] and the exit status of the process *)

(** How the interpreter leaves [main()]: by returning, through
    [sys.exit(code)], or with an exception nobody caught. *)
Inductive outcome : Type :=
| Returned
| SysExit (code : Z)
| Uncaught (e : exn).

(** Lines 259-263: logging set-up and [Path("checkpoints").mkdir]. *)
Definition main_prelude (E : env) : M unit :=
  lift (setup_logging E) ;;
  emit (EvMkdir "checkpoints").

Definition main (E : env) (w : world) : outcome * world :=
  match (main_prelude E ;; run_cifar100_experiment E 5000) w with
  | (Ok true, w') => (Returned, w')
  | (Ok false, w') => (SysExit 1, w')
  | (Raise e, w') => (Uncaught e, w')
  end.

Definition exit_status (o : outcome) : Z :=
  match o with
  | Returned => 0
  | SysExit code => code
  | Uncaught (Exception _) => 1
  | Uncaught KeyboardInterrupt => 130
  end.

(** ** Vocabulary of the statements *)

(** The events a run appended to the trace between two worlds. *)
Definition events_since (w w' : world) : list event :=
  skipn (List.length (trace w)) (trace w').

(** The checkpoint records written in a stretch of the trace, oldest
    first, and the one that survives. *)
Fixpoint written (tr : list event) : list checkpoint :=
  match tr with
  | [] => []
  | EvWriteClose _ r :: tr' => r :: written tr'
  | _ :: tr' => written tr'
  end.

Definition last_written (tr : list event) : option checkpoint :=
  last (map Some (written tr)) None.

(** The epochs whose training pass was started. *)
Fixpoint train_passes (tr : list event) : list nat :=
  match tr with
  | [] => []
  | EvTrainPass e _ :: tr' => e :: train_passes tr'
  | _ :: tr' => train_passes tr'
  end.

(** The training passes, validation passes and scheduler steps of a
    trace, in order. *)
Definition is_schedule_event (ev : event) : bool :=
  match ev with
  | EvTrainPass _ _ | EvValPass _ | EvSchedulerStep => true
  | _ => false
  end.

Definition schedule_events (tr : list event) : list event :=
  filter is_schedule_event tr.

Definition is_rename (ev : event) : bool :=
  match ev with
  | EvRename _ _ => true
  | _ => false
  end.

(** [max(x, xs...)] of a non-empty sequence. *)
Definition max_of (x : Q) (xs : list Q) : Q := fold_left Qmax xs x.

(** The number of milestones [<= e]. *)
Definition milestones_passed (ms : list Z) (e : Z) : nat :=
  List.length (filter (fun m => (m <=? e)%Z) ms).

(** The base rate of line 40 multiplied in binary64 by the [gamma] of
    line 49, once per milestone of line 47 that is [<= e]. *)
Definition rate_at (e : nat) : float :=
  Nat.iter (milestones_passed [60; 120; 160]%Z (Z.of_nat e))
           (fun rate => (rate * 0.2)%float) 0.1%float.



(** The effect of an epoch whose two passes return normally, the
    training pass over [b] batches and the validation pass with
    accuracy [a], and whose line 105 finds [current_lr] bound to [c]. *)
Definition epoch_checkpoint (st : train_state) (e : nat) (a : Q) : checkpoint :=
  {| model_state_dict := S (model st); acc := a; epoch := e |}.

Definition next_state (st : train_state) (b : nat) (a : Q) : train_state :=
  {| best_acc := if Qgtb a (best_acc st) then a else best_acc st;
     scheduler := Torch.step (scheduler st);
     model := S (model st);
     current_lr := logged_lr st b |}.

Definition epoch_events (st : train_state) (e : nat) (a : Q) (c : float) : list event :=
  [EvTrainPass e (Torch.lr (scheduler st));
   EvValPass e;
   EvLog INFO (MsgValAcc (e + 1) a c)]
  ++ (if Qgtb a (best_acc st)
      then [EvLog INFO (MsgSaving a);
            EvMkdir "checkpoints/wideresnet";
            EvOpenW CHECKPOINT_PATH;
            EvWriteClose CHECKPOINT_PATH (epoch_checkpoint st e a)]
      else [])
  ++ [EvSchedulerStep].

Definition next_world (st : train_state) (e : nat) (a : Q) (c : float)
    (w : world) : world :=
  {| ckpt_file := if Qgtb a (best_acc st)
                  then Some (Saved (epoch_checkpoint st e a))
                  else ckpt_file w;
     trace := trace w ++ epoch_events st e a c |}.

(** Crash atomicity of a checkpoint write: whenever the process dies,
    the checkpoint path holds what it held before the write or the
    complete new record. *)
Definition crash_atomic : Prop :=
  forall (r : checkpoint) (w : world) (k : nat),
    ckpt_file (crash_after k r w) = ckpt_file w \/
    ckpt_file (crash_after k r w) = Some (Saved r).

(** The places of lines 190-228 where a collaborator can raise [e]:
    building the experiment, loading either split, extracting the
    features of either view, fitting or scoring a classifier after the
    ones before it went through. *)
Inductive stage_fault (E : env) (subset_size : Z) (e : exn) : Prop :=
| FaultExperiment :
    new_experiment E subset_size = Raise e ->
    stage_fault E subset_size e
| FaultTrainSplit (clfs : list string) :
    new_experiment E subset_size = Ok clfs ->
    get_dataset E true false = Raise e ->
    stage_fault E subset_size e
| FaultTestSplit (clfs : list string) (train : list sample) :
    new_experiment E subset_size = Ok clfs ->
    get_dataset E true false = Ok train ->
    get_dataset E false false = Raise e ->
    stage_fault E subset_size e
| FaultTrainFeatures (clfs : list string) (train test : list sample) :
    new_experiment E subset_size = Ok clfs ->
    get_dataset E true false = Ok train ->
    get_dataset E false false = Ok test ->
    extract_features E (fst (dataset_views subset_size train test)) = Raise e ->
    stage_fault E subset_size e
| FaultTestFeatures (clfs : list string) (train test : list sample)
    (train_f : extracted) :
    new_experiment E subset_size = Ok clfs ->
    get_dataset E true false = Ok train ->
    get_dataset E false false = Ok test ->
    extract_features E (fst (dataset_views subset_size train test)) = Ok train_f ->
    extract_features E (snd (dataset_views subset_size train test)) = Raise e ->
    stage_fault E subset_size e
| FaultClassifier (done rest : list string) (c : string)
    (train test : list sample) (train_f test_f : extracted) :
    new_experiment E subset_size = Ok (done ++ c :: rest) ->
    get_dataset E true false = Ok train ->
    get_dataset E false false = Ok test ->
    extract_features E (fst (dataset_views subset_size train test)) = Ok train_f ->
    extract_features E (snd (dataset_views subset_size train test)) = Ok test_f ->
    (forall c', In c' done ->
       exists r, train_and_evaluate E c' train_f test_f = Ok r) ->
    train_and_evaluate E c train_f test_f = Raise e ->
    stage_fault E subset_size e.

(** What the checkpoint path holds after a run from [w] to [w'] whose
    best accuracy is [best]: the last record the run wrote, carrying
    [best]; or, when the run wrote nothing, what was there before. *)
Definition stored_is (w w' : world) (best : Q) : Prop :=
  match last_written (events_since w w') with
  | Some r => ckpt_file w' = Some (Saved r) /\ acc r = best
  | None => ckpt_file w' = ckpt_file w
  end.

(** The invariant of the epoch loop, for a run started in [w] whose
    validation passes return [a 0], [a 1], ...: after [i] epochs the run
    has appended some events [tr]; [best_acc] is the running maximum,
    seeded with [0.0]; the checkpoint path holds the last record
    written; the training passes of epochs [0 .. i-1] were started, in
    order; and every record written carries the positive accuracy of the
    epoch it names. *)
Definition run_inv (a : nat -> Q) (w : world) (i : nat)
    (st : train_state) (wi : world) : Prop :=
  exists tr,
    trace wi = trace w ++ tr /\
    best_acc st = fold_left Qmax (map a (seq 0 i)) 0 /\
    stored_is w wi (best_acc st) /\
    train_passes tr = seq 0 i /\
    Forall (fun r => (epoch r < i)%nat /\ acc r = a (epoch r) /\ 0 < acc r)
           (written tr).

(** ** Vocabulary of the further properties *)

(** The accuracy the validation pass of epoch [i] returns ([0] stands
    in where it raises). *)
Definition val_acc (E : env) (i : nat) : Q :=
  match val_pass E i with
  | Ok x => x
  | Raise _ => 0
  end.

(** Record [r] is the one a run of [i] epochs with accuracies [a] must
    have kept: it names an epoch of the run and carries that epoch's
    accuracy, which is positive, and the parameters as they were after
    that epoch's training pass; every earlier epoch scored strictly
    less, and no epoch scored more. *)
Definition selected (a : nat -> Q) (i : nat) (r : checkpoint) : Prop :=
  (epoch r < i)%nat /\
  acc r = a (epoch r) /\
  model_state_dict r = S (epoch r) /\
  0 < acc r /\
  (forall j, (j < epoch r)%nat -> a j < acc r) /\
  (forall j, (j < i)%nat -> a j <= acc r).

(** A second invariant of the epoch loop: [model] counts the training
    passes; either the run has written, the path holds its last record,
    [best_acc] is that record's accuracy and the record is [selected];
    or it has not, the path is untouched, [best_acc] is still [0.0] and
    no accuracy was positive. *)
Definition sel_inv (a : nat -> Q) (w : world) (i : nat)
    (st : train_state) (wi : world) : Prop :=
  exists tr,
    trace wi = trace w ++ tr /\
    model st = i /\
    match last_written tr with
    | Some r =>
        best_acc st = acc r /\ ckpt_file wi = Some (Saved r) /\ selected a i r
    | None =>
        best_acc st = 0 /\ ckpt_file wi = ckpt_file w /\
        forall j, (j < i)%nat -> a j <= 0
    end.

(** Epoch [k] fails with [e]: its training pass raises [e], or its
    training pass returns and its validation pass raises [e]. *)
Definition pass_fault (E : env) (k : nat) (e : exn) : Prop :=
  train_pass E k = Raise e \/
  (train_pass E k = Ok tt /\ val_pass E k = Raise e).

(** The learning rates of the training passes of a trace, in order. *)
Fixpoint train_rates (tr : list event) : list float :=
  match tr with
  | [] => []
  | EvTrainPass _ rate :: tr' => rate :: train_rates tr'
  | _ :: tr' => train_rates tr'
  end.

Definition is_error_log (ev : event) : bool :=
  match ev with
  | EvLog ERROR _ => true
  | _ => false
  end.

(** What lines 218-246 log when nothing raises: one line per
    classifier fitted, the header, one line per entry of the results,
    and the error line when the quality gate fails. *)
Definition stage_log (clfs : list string) (results : dict metrics) : list event :=
  map (fun c => EvLog INFO (MsgTraining c)) clfs
  ++ [EvLog INFO MsgResultsHeader]
  ++ map (fun kv => EvLog INFO (MsgResult (fst kv) (snd kv))) results
  ++ (if all_below_floor results then [EvLog ERROR MsgPoorResults] else []).

(** The results dictionary the loop of lines 218-228 builds from [d]
    when classifier [c] scores [te c]. *)
Definition collect_results (te : string -> Q * Q * Q) (clfs : list string)
    (d : dict metrics) : dict metrics :=
  fold_left (fun d c => dict_set c (make_metrics (te c)) d) clfs d.

(** ** Stub collaborators for the scenarios *)

Module Stub.

Definition dataset (n : nat) : list sample :=
  map (fun i => {| image := i; label := i |}) (seq 0 n).

Definition extract (ds : list sample) : extracted :=
  {| features := map (fun _ => []) ds; labels := map label ds |}.

Fixpoint lookup (k : string) (d : list (string * Q)) : option Q :=
  match d with
  | [] => None
  | (k', v) :: d' => if String.eqb k k' then Some v else lookup k d'
  end.

(** Validation accuracies [accs], one per epoch; 390 training batches
    per epoch; classifiers with the accuracies [clfs]; a train split of
    3 samples, a test split of 2. *)
Definition stub_env (accs : list Q) (clfs : list (string * Q)) : env :=
  {| setup_logging := Ok tt;
     get_dataset := fun train _ => Ok (dataset (if train then 3 else 2));
     get_model := Ok tt;
     train_pass := fun _ => Ok tt;
     train_batches := fun _ => 390%nat;
     val_pass := fun e =>
       match nth_error accs e with
       | Some a => Ok a
       | None => Raise (Exception "ZeroDivisionError")
       end;
     new_experiment := fun _ => Ok (map fst clfs);
     extract_features := fun ds => Ok (extract ds);
     train_and_evaluate := fun name _ _ =>
       match lookup name clfs with
       | Some a => Ok (0, 0, a)
       | None => Raise (Exception "KeyError")
       end |}.

(** As [stub_env], with feature extraction failing on the test view. *)
Definition faulty_extraction_env (clfs : list (string * Q)) : env :=
  let E := stub_env [] clfs in
  {| setup_logging := setup_logging E;
     get_dataset := get_dataset E;
     get_model := get_model E;
     train_pass := train_pass E;
     train_batches := train_batches E;
     val_pass := val_pass E;
     new_experiment := new_experiment E;
     extract_features := fun ds =>
       if (List.length ds =? 2)%nat then Raise (Exception "ValueError")
       else Ok (extract ds);
     train_and_evaluate := train_and_evaluate E |}.

(** As [stub_env], with a training stream that yields no batch. *)
Definition empty_stream_env (accs : list Q) : env :=
  let E := stub_env accs [] in
  {| setup_logging := setup_logging E;
     get_dataset := get_dataset E;
     get_model := get_model E;
     train_pass := train_pass E;
     train_batches := fun _ => 0%nat;
     val_pass := val_pass E;
     new_experiment := new_experiment E;
     extract_features := extract_features E;
     train_and_evaluate := train_and_evaluate E |}.

Definition fresh : world := {| ckpt_file := None; trace := [] |}.

Definition with_checkpoint (f : file) : world :=
  {| ckpt_file := Some f; trace := [] |}.

End Stub.

(** * Properties *)

(** ** Comparisons *)

Lemma Qltb_lt (x y : Q) : Qltb x y = true <-> x < y.
Proof.
  unfold Qltb. rewrite Qlt_alt.
  destruct (x ?= y); split; intro H; try reflexivity; discriminate H.
Qed.

Lemma Qltb_ge (x y : Q) : Qltb x y = false <-> y <= x.
Proof.
  rewrite <- Bool.not_true_iff_false, Qltb_lt. split.
  - apply Qnot_lt_le.
  - apply Qle_not_lt.
Qed.

Lemma Qgtb_Qmax (a b : Q) : (if Qgtb a b then a else b) = Qmax b a.
Proof.
  unfold Qgtb, Qltb, Qmax, GenericMinMax.gmax.
  destruct (b ?= a); reflexivity.
Qed.

(** ** The effect monad *)

Lemma bind_ok {A B : Type} (m : M A) (k : A -> M B) (w w' : world) (x : A) :
  m w = (Ok x, w') -> bind m k w = k x w'.
Proof. intro H. unfold bind. rewrite H. reflexivity. Qed.

Lemma bind_raise {A B : Type} (m : M A) (k : A -> M B) (w w' : world) (e : exn) :
  m w = (Raise e, w') -> bind m k w = (Raise e, w').
Proof. intro H. unfold bind. rewrite H. reflexivity. Qed.

Lemma bind_inv {A B : Type} (m : M A) (k : A -> M B) (w w' : world) (y : B) :
  bind m k w = (Ok y, w') ->
  exists x w1, m w = (Ok x, w1) /\ k x w1 = (Ok y, w').
Proof.
  unfold bind. destruct (m w) as [[x | e] w1]; intro H.
  - exists x, w1. split; [reflexivity | exact H].
  - discriminate H.
Qed.

Lemma foldM_app {A S : Type} (body : S -> A -> M S) (xs ys : list A) (s : S) (w : world) :
  foldM body (xs ++ ys) s w = bind (foldM body xs s) (foldM body ys) w.
Proof.
  revert s w. induction xs as [| x xs IH]; intros s w; simpl.
  - reflexivity.
  - unfold bind in *. destruct (body s x w) as [[s' | e] w1].
    + apply IH.
    + reflexivity.
Qed.

Lemma events_since_app (w w' : world) (tr : list event) :
  trace w' = trace w ++ tr -> events_since w w' = tr.
Proof.
  intro H. unfold events_since. rewrite H.
  rewrite skipn_app, skipn_all, Nat.sub_diag. reflexivity.
Qed.

Lemma written_app (tr1 tr2 : list event) :
  written (tr1 ++ tr2) = written tr1 ++ written tr2.
Proof.
  induction tr1 as [| ev tr1 IH]; simpl.
  - reflexivity.
  - destruct ev; simpl; rewrite IH; reflexivity.
Qed.

Lemma train_passes_app (tr1 tr2 : list event) :
  train_passes (tr1 ++ tr2) = train_passes tr1 ++ train_passes tr2.
Proof.
  induction tr1 as [| ev tr1 IH]; simpl.
  - reflexivity.
  - destruct ev; simpl; rewrite IH; reflexivity.
Qed.

(** ** One epoch, and the loop *)

Lemma epoch_body_ok (E : env) (st : train_state) (e : nat) (a : Q) (c : float)
    (w : world) :
  train_pass E e = Ok tt ->
  val_pass E e = Ok a ->
  logged_lr st (train_batches E e) = Some c ->
  epoch_body E st e w
  = (Ok (next_state st (train_batches E e) a), next_world st e a c w).
Proof.
  intros Ht Hv Hc.
  unfold epoch_body, next_state, next_world, epoch_events, epoch_checkpoint.
  unfold bind, emit, log, lift, ret, mkdir_parent, torch_save.
  rewrite Ht, Hv, Hc. cbn.
  destruct (Qgtb a (best_acc st)); cbn;
    repeat rewrite <- app_assoc; reflexivity.
Qed.

(** Line 105 with [current_lr] unbound: the epoch raises after its
    validation pass and before the checkpoint decision. *)
Lemma epoch_body_unbound (E : env) (st : train_state) (e : nat) (a : Q) (w : world) :
  train_pass E e = Ok tt ->
  val_pass E e = Ok a ->
  logged_lr st (train_batches E e) = None ->
  epoch_body E st e w
  = (Raise (Exception "UnboundLocalError"),
     {| ckpt_file := ckpt_file w;
        trace := trace w ++ [EvTrainPass e (Torch.lr (scheduler st)); EvValPass e] |}).
Proof.
  intros Ht Hv Hc.
  unfold epoch_body, bind, emit, log, lift.
  rewrite Ht, Hv, Hc. cbn. rewrite <- app_assoc. reflexivity.
Qed.

Lemma epoch_body_inv (E : env) (st st' : train_state) (e : nat) (w w' : world) :
  epoch_body E st e w = (Ok st', w') ->
  train_pass E e = Ok tt /\ exists a, val_pass E e = Ok a.
Proof.
  unfold epoch_body, bind, emit, log, lift. cbn.
  destruct (train_pass E e) as [[] | x]; [| discriminate].
  destruct (val_pass E e) as [a | x]; [| discriminate].
  intros _. split; [reflexivity | exists a; reflexivity].
Qed.

Lemma epoch_body_inv_lr (E : env) (st st' : train_state) (e : nat) (w w' : world) :
  epoch_body E st e w = (Ok st', w') ->
  logged_lr st (train_batches E e) <> None.
Proof.
  intros H Hnone.
  destruct (epoch_body_inv E st st' e w w' H) as (Ht & a & Hv).
  rewrite (epoch_body_unbound E st e a w Ht Hv Hnone) in H. discriminate H.
Qed.

Lemma epoch_loop_S (E : env) (n : nat) (w : world) :
  epoch_loop E (S n) w = bind (epoch_loop E n) (fun st => epoch_body E st n) w.
Proof.
  unfold epoch_loop. rewrite seq_S, foldM_app. cbn.
  unfold bind. destruct (foldM (epoch_body E) (seq 0 n) initial_state w) as [[st | x] w1].
  - destruct (epoch_body E st n w1) as [[st' | x] w2]; reflexivity.
  - reflexivity.
Qed.

(** An invariant that holds initially and is kept by every normal epoch
    holds when the loop ends, and the loop does end normally, provided
    the training stream of the first epoch is not empty: from then on
    [current_lr] is bound. *)
Lemma epoch_loop_invariant (E : env) (a : nat -> Q) (n : nat) (w : world)
    (P : nat -> train_state -> world -> Prop) :
  (forall i, (i < n)%nat -> train_pass E i = Ok tt /\ val_pass E i = Ok (a i)) ->
  ((0 < n)%nat -> (0 < train_batches E 0)%nat) ->
  P 0%nat initial_state w ->
  (forall i st wi c, (i < n)%nat -> P i st wi ->
     P (S i) (next_state st (train_batches E i) (a i)) (next_world st i (a i) c wi)) ->
  exists st w',
    epoch_loop E n w = (Ok st, w') /\ P n st w' /\
    ((0 < n)%nat -> current_lr st <> None).
Proof.
  intros Hok Hb H0 Hstep. induction n as [| n IH].
  - exists initial_state, w. split; [reflexivity | split; [exact H0 | lia]].
  - destruct IH as (st & w1 & Hloop & HP & Hlr).
    + intros i Hi. apply Hok. lia.
    + intros _. apply Hb. lia.
    + intros i st wi c Hi. apply Hstep. lia.
    + destruct (Hok n) as [Ht Hv]; [lia |].
      assert (Hc : exists c, logged_lr st (train_batches E n) = Some c).
      { unfold logged_lr. destruct n as [| n].
        - assert (Hb0 : (0 < train_batches E 0)%nat) by (apply Hb; lia).
          apply Nat.ltb_lt in Hb0. rewrite Hb0. eexists. reflexivity.
        - destruct (0 <? train_batches E (S n))%nat; [eexists; reflexivity |].
          destruct (current_lr st) as [c |] eqn:Hcur; [exists c; reflexivity |].
          exfalso. apply Hlr; [lia | reflexivity]. }
      destruct Hc as [c Hc].
      exists (next_state st (train_batches E n) (a n)), (next_world st n (a n) c w1).
      split; [| split].
      * rewrite epoch_loop_S. erewrite bind_ok; [| exact Hloop].
        apply epoch_body_ok; assumption.
      * apply Hstep; [lia | exact HP].
      * intros _. cbn [next_state current_lr]. rewrite Hc. discriminate.
Qed.

Lemma epoch_loop_inv (E : env) (n : nat) (w w' : world) (st : train_state) :
  epoch_loop E n w = (Ok st, w') ->
  forall i, (i < n)%nat -> train_pass E i = Ok tt /\ exists a, val_pass E i = Ok a.
Proof.
  revert st w'. induction n as [| n IH]; intros st w' H i Hi.
  - lia.
  - rewrite epoch_loop_S in H. apply bind_inv in H.
    destruct H as (st1 & w1 & Hloop & Hbody).
    destruct (Nat.eq_dec i n) as [-> | Hne].
    + eapply epoch_body_inv. exact Hbody.
    + eapply IH; [exact Hloop | lia].
Qed.

(** A loop that has completed an epoch found a batch in the first. *)
Lemma epoch_loop_inv_batches (E : env) (n : nat) (w w' : world) (st : train_state) :
  epoch_loop E n w = (Ok st, w') ->
  (0 < n)%nat -> (0 < train_batches E 0)%nat.
Proof.
  intros H Hn. destruct n as [| n]; [lia |].
  unfold epoch_loop in H. cbn [seq foldM] in H.
  apply bind_inv in H. destruct H as (st1 & w1 & Hbody & _).
  apply epoch_body_inv_lr in Hbody.
  unfold logged_lr in Hbody. cbn [initial_state current_lr] in Hbody.
  destruct (0 <? train_batches E 0)%nat eqn:Hb.
  - apply Nat.ltb_lt. exact Hb.
  - exfalso. apply Hbody. reflexivity.
Qed.

(** The accuracies of a completed loop are the ones its validation
    passes returned. *)
Lemma epoch_loop_completed (E : env) (n : nat) (w w' : world) (st : train_state) :
  epoch_loop E n w = (Ok st, w') ->
  (forall i, (i < n)%nat ->
     train_pass E i = Ok tt /\ val_pass E i = Ok (val_acc E i)) /\
  ((0 < n)%nat -> (0 < train_batches E 0)%nat).
Proof.
  intro H. split.
  - intros i Hi. destruct (epoch_loop_inv E n w w' st H i Hi) as (Ht & x & Hx).
    split; [exact Ht |]. unfold val_acc. rewrite Hx. reflexivity.
  - apply (epoch_loop_inv_batches E n w w' st H).
Qed.

(** ** The best accuracy and the stored record *)

Lemma fold_left_Qmax_compat (xs : list Q) (x y : Q) :
  x == y -> fold_left Qmax xs x == fold_left Qmax xs y.
Proof.
  revert x y. induction xs as [| z xs IH]; intros x y H; simpl.
  - exact H.
  - apply IH. rewrite H. reflexivity.
Qed.

Lemma written_epoch_events (st : train_state) (e : nat) (a : Q) (c : float) :
  written (epoch_events st e a c) =
  if Qgtb a (best_acc st) then [epoch_checkpoint st e a] else [].
Proof.
  unfold epoch_events. destruct (Qgtb a (best_acc st)); reflexivity.
Qed.

Lemma events_since_next_world (st : train_state) (e : nat) (a : Q) (c : float)
    (w : world) :
  events_since w (next_world st e a c w) = epoch_events st e a c.
Proof. apply events_since_app. reflexivity. Qed.

Lemma next_state_best_le (st : train_state) (b : nat) (a : Q) :
  best_acc st <= best_acc (next_state st b a).
Proof.
  simpl. destruct (Qgtb a (best_acc st)) eqn:Hgt.
  - apply Qlt_le_weak. apply Qltb_lt. exact Hgt.
  - apply Qle_refl.
Qed.

Lemma run_inv_init (a : nat -> Q) (w : world) : run_inv a w 0 initial_state w.
Proof.
  exists []. repeat split.
  - symmetry. apply app_nil_r.
  - unfold stored_is. rewrite (events_since_app w w []).
    + reflexivity.
    + symmetry. apply app_nil_r.
  - constructor.
Qed.

Lemma run_inv_step (a : nat -> Q) (w : world) (i b : nat) (c : float)
    (st : train_state) (wi : world) :
  run_inv a w i st wi ->
  run_inv a w (S i) (next_state st b (a i)) (next_world st i (a i) c wi).
Proof.
  intros (tr & Htr & Hbest & Hstored & Hpasses & Hwritten).
  assert (Htr' : trace (next_world st i (a i) c wi)
                 = trace w ++ (tr ++ epoch_events st i (a i) c)).
  { simpl. rewrite Htr, app_assoc. reflexivity. }
  exists (tr ++ epoch_events st i (a i) c).
  split; [exact Htr' |].
  split.
  { rewrite seq_S, map_app, fold_left_app. simpl.
    rewrite <- Hbest. apply Qgtb_Qmax. }
  split.
  { unfold stored_is in *.
    rewrite (events_since_app _ _ _ Htr').
    rewrite (events_since_app _ _ _ Htr) in Hstored.
    unfold last_written in *.
    rewrite written_app, written_epoch_events, map_app. simpl.
    destruct (Qgtb (a i) (best_acc st)).
    - simpl. rewrite last_last. split; reflexivity.
    - simpl. rewrite app_nil_r. exact Hstored. }
  split.
  { rewrite train_passes_app, Hpasses, seq_S.
    unfold epoch_events. destruct (Qgtb (a i) (best_acc st)); reflexivity. }
  rewrite written_app, written_epoch_events. apply Forall_app. split.
  - eapply Forall_impl; [| exact Hwritten].
    intros r (Hlt & Hacc & Hpos). repeat split; [lia | exact Hacc | exact Hpos].
  - destruct (Qgtb (a i) (best_acc st)) eqn:Hgt; constructor; [| constructor].
    simpl. repeat split; [lia |].
    apply Qltb_lt in Hgt. eapply Qle_lt_trans; [| exact Hgt].
    rewrite Hbest. clear. generalize (map a (seq 0 i)). intro xs.
    assert (G : forall x, 0 <= x -> 0 <= fold_left Qmax xs x).
    { induction xs as [| z xs IH]; intros x Hx; simpl.
      - exact Hx.
      - apply IH. eapply Qle_trans; [exact Hx | apply Q.le_max_l]. }
    apply G. apply Qle_refl.
Qed.

Lemma run_inv_holds (E : env) (a : nat -> Q) (n : nat) (w : world) :
  (forall i, (i < n)%nat -> train_pass E i = Ok tt /\ val_pass E i = Ok (a i)) ->
  ((0 < n)%nat -> (0 < train_batches E 0)%nat) ->
  exists st w', epoch_loop E n w = (Ok st, w') /\ run_inv a w n st w'.
Proof.
  intros Hok Hb.
  destruct (epoch_loop_invariant E a n w (run_inv a w) Hok Hb)
    as (st & w' & Hloop & Hinv & _).
  - apply run_inv_init.
  - intros i st wi c _. apply run_inv_step.
  - exists st, w'. split; assumption.
Qed.

(** The last epoch of a completed loop: the loop had completed the
    epochs before it, and the epoch went from there as a normal epoch
    goes. *)
Lemma epoch_loop_last (E : env) (e : nat) (w w' : world) (st : train_state) :
  epoch_loop E (S e) w = (Ok st, w') ->
  exists st0 w0 c,
    epoch_loop E e w = (Ok st0, w0) /\
    st = next_state st0 (train_batches E e) (val_acc E e) /\
    w' = next_world st0 e (val_acc E e) c w0.
Proof.
  intro H. pose proof H as H'.
  rewrite epoch_loop_S in H'. apply bind_inv in H'.
  destruct H' as (st0 & w0 & Hloop & Hbody).
  destruct (epoch_loop_completed E (S e) w w' st H) as [Hok _].
  destruct (Hok e) as [Ht Hv]; [lia |].
  pose proof (epoch_body_inv_lr E st0 st e w0 w' Hbody) as Hlr.
  destruct (logged_lr st0 (train_batches E e)) as [c |] eqn:Hc; [| contradiction].
  rewrite (epoch_body_ok E st0 e (val_acc E e) c w0 Ht Hv Hc) in Hbody.
  inversion Hbody. exists st0, w0, c. repeat split. exact Hloop.
Qed.

(** C1.  After the training loop has completed epoch [e], with the
    validation passes of epochs [0..e] having returned the non-negative
    accuracies [a 0 .. a e] (line 104 yields a percentage): [best_acc]
    is [max(a 0 .. a e)]; the checkpoint path holds the last record the
    run wrote, whose accuracy is [best_acc], or is untouched when
    nothing was written; [best_acc] and the stored accuracy did not
    decrease during epoch [e]; and epoch [e] wrote a record exactly
    when [a e] strictly exceeded the best accuracy before it, so a tie
    writes nothing. *)
Theorem best_acc_is_running_max :
  forall (E : env) (a : nat -> Q) (e : nat) (w w' : world) (st : train_state),
    epoch_loop E (S e) w = (Ok st, w') ->
    (forall i, (i <= e)%nat -> val_pass E i = Ok (a i) /\ 0 <= a i) ->
    exists st_prev w_prev,
      epoch_loop E e w = (Ok st_prev, w_prev) /\
      best_acc st == max_of (a 0%nat) (map a (seq 1 e)) /\
      stored_is w w' (best_acc st) /\
      best_acc st_prev <= best_acc st /\
      (forall r_prev r,
         last_written (events_since w w_prev) = Some r_prev ->
         last_written (events_since w w') = Some r ->
         acc r_prev <= acc r) /\
      (written (events_since w_prev w') <> [] <-> best_acc st_prev < a e).
Proof.
  intros E a e w w' st Hdone H.
  destruct (epoch_loop_completed E (S e) w w' st Hdone) as [Hok Hb].
  assert (Hacc : forall i, (i <= e)%nat -> val_acc E i = a i).
  { intros i Hi. unfold val_acc. destruct (H i Hi) as [-> _]. reflexivity. }
  assert (Hok' : forall i, (i < e)%nat ->
             train_pass E i = Ok tt /\ val_pass E i = Ok (a i)).
  { intros i Hi. destruct (Hok i) as [Ht _]; [lia |].
    destruct (H i) as [Hv _]; [lia |]. split; assumption. }
  destruct (epoch_loop_last E e w w' st Hdone) as (st0 & w0 & c & Hloop & -> & ->).
  rewrite (Hacc e (Nat.le_refl e)).
  destruct (run_inv_holds E a e w Hok') as (st1 & w1 & Hloop1 & Hinv).
  { intros He. apply Hb. lia. }
  rewrite Hloop in Hloop1. inversion Hloop1; subst st1 w1.
  pose proof (run_inv_step a w e (train_batches E e) c st0 w0 Hinv) as Hinv'.
  exists st0, w0.
  split; [exact Hloop |].
  destruct Hinv as (tr0 & _ & _ & Hst0 & _).
  destruct Hinv' as (tr & _ & Hbest & Hst & _).
  split.
  { rewrite Hbest. unfold max_of. simpl.
    apply fold_left_Qmax_compat. apply Q.max_r.
    destruct (H 0%nat) as (_ & H0); [lia | exact H0]. }
  split; [exact Hst |].
  split; [apply next_state_best_le |].
  split.
  { intros r_prev r Hp Hr. unfold stored_is in Hst0, Hst.
    rewrite Hp in Hst0. rewrite Hr in Hst.
    destruct Hst0 as [_ ->]. destruct Hst as [_ ->].
    apply next_state_best_le. }
  rewrite events_since_next_world, written_epoch_events.
  unfold Qgtb. destruct (Qltb (best_acc st0) (a e)) eqn:Hlt.
  - apply Qltb_lt in Hlt. split; [intros _; exact Hlt | intros _; discriminate].
  - apply Qltb_ge in Hlt. split.
    + intro Hc. exfalso. apply Hc. reflexivity.
    + intro Hc. exfalso. exact (Qle_not_lt _ _ Hlt Hc).
Qed.

Lemma best_acc_is_running_max_witness :
  exists st w',
    epoch_loop (Stub.stub_env [40; 55; 52] []) 3 Stub.fresh = (Ok st, w') /\
    best_acc st == max_of 40 [55; 52] /\
    stored_is Stub.fresh w' (best_acc st).
Proof.
  remember (epoch_loop (Stub.stub_env [40; 55; 52] []) 3 Stub.fresh) as out eqn:Hout.
  assert (Hfst : exists st, fst out = Ok st)
    by (rewrite Hout; vm_compute; eexists; reflexivity).
  destruct out as [res w']. cbn in Hfst. destruct Hfst as [st ->].
  destruct (best_acc_is_running_max (Stub.stub_env [40; 55; 52] [])
              (fun i => nth i [40; 55; 52] 0) 2%nat Stub.fresh w' st (eq_sym Hout))
    as (st_prev & w_prev & _ & Hmax & Hstored & _).
  - intros i Hi.
    destruct i as [| [| [| i]]]; [| | | lia];
      (split; [reflexivity | simpl; discriminate]).
  - exists st, w'. split; [reflexivity | split; [exact Hmax | exact Hstored]].
Defined.

Lemma fold_left_Qmax_lt_iff (xs : list Q) (x y : Q) :
  fold_left Qmax xs x < y <-> x < y /\ Forall (fun z => z < y) xs.
Proof.
  revert x. induction xs as [| z xs IH]; intro x; simpl.
  - split; [intro H; split; [exact H | constructor] | intros [H _]; exact H].
  - rewrite IH, Q.max_lub_lt_iff. split.
    + intros [[Hx Hz] Hxs]. split; [exact Hx | constructor; assumption].
    + intros [Hx Hall]. inversion Hall; subst. repeat split; assumption.
Qed.

Lemma fold_left_Qmax_gt_iff (xs : list Q) (x y : Q) :
  y < fold_left Qmax xs x <-> y < x \/ Exists (fun z => y < z) xs.
Proof.
  revert x. induction xs as [| z xs IH]; intro x; simpl.
  - split; [intro H; left; exact H | intros [H | H]; [exact H | inversion H]].
  - rewrite IH, Q.max_lt_iff. split.
    + intros [[Hx | Hz] | Hxs].
      * left; exact Hx.
      * right; left; exact Hz.
      * right; right; exact Hxs.
    + intros [Hx | Hex].
      * left; left; exact Hx.
      * inversion Hex; subst; [left; right | right]; assumption.
Qed.

Lemma Forall_map_seq (a : nat -> Q) (P : Q -> Prop) (n : nat) :
  Forall P (map a (seq 0 n)) <-> forall i, (i < n)%nat -> P (a i).
Proof.
  rewrite Forall_forall. split.
  - intros H i Hi. apply H. apply in_map. apply in_seq. lia.
  - intros H x Hx. apply in_map_iff in Hx. destruct Hx as (i & <- & Hi).
    apply in_seq in Hi. apply H. lia.
Qed.

Lemma Exists_map_seq (a : nat -> Q) (P : Q -> Prop) (n : nat) :
  Exists P (map a (seq 0 n)) <-> exists i, (i < n)%nat /\ P (a i).
Proof.
  rewrite Exists_exists. split.
  - intros (x & Hx & HP). apply in_map_iff in Hx. destruct Hx as (i & <- & Hi).
    apply in_seq in Hi. exists i. split; [lia | exact HP].
  - intros (i & Hi & HP). exists (a i). split; [| exact HP].
    apply in_map. apply in_seq. lia.
Qed.

(** ** [train_model] as a whole *)

Lemma train_model_unfold (E : env) (n : nat) (w w1 : world) (st : train_state) :
  epoch_loop E n (snd (log INFO MsgTrainingFromScratch w)) = (Ok st, w1) ->
  train_model E n w =
  (Ok (Qgtb (best_acc st) 50), snd (log INFO (MsgBestAccuracy (best_acc st)) w1)).
Proof.
  intro H. unfold train_model. unfold bind at 1. cbn.
  cbn in H. erewrite bind_ok; [| exact H]. reflexivity.
Qed.

Lemma train_model_inv (E : env) (n : nat) (w w' : world) (ok : bool) :
  train_model E n w = (Ok ok, w') ->
  exists st w1,
    epoch_loop E n (snd (log INFO MsgTrainingFromScratch w)) = (Ok st, w1) /\
    ok = Qgtb (best_acc st) 50 /\
    w' = snd (log INFO (MsgBestAccuracy (best_acc st)) w1).
Proof.
  unfold train_model. unfold bind at 1. cbn. intro H.
  apply bind_inv in H. destruct H as (st & w1 & Hloop & Hrest).
  exists st, w1. split; [exact Hloop |].
  cbn in Hrest. inversion Hrest. split; reflexivity.
Qed.

(** A run whose passes all return normally and whose first training
    stream is not empty: [train_model] returns, with the verdict
    [best_acc > 50], and the invariant of the loop holds for what it
    appended between its two log records. *)
Lemma train_model_ok (E : env) (a : nat -> Q) (n : nat) (w : world) :
  (forall i, (i < n)%nat -> train_pass E i = Ok tt /\ val_pass E i = Ok (a i)) ->
  ((0 < n)%nat -> (0 < train_batches E 0)%nat) ->
  exists st w' tr,
    train_model E n w = (Ok (Qgtb (best_acc st) 50), w') /\
    best_acc st = fold_left Qmax (map a (seq 0 n)) 0 /\
    trace w' = trace w
               ++ [EvLog INFO MsgTrainingFromScratch] ++ tr
               ++ [EvLog INFO (MsgBestAccuracy (best_acc st))] /\
    train_passes tr = seq 0 n /\
    Forall (fun r => (epoch r < n)%nat /\ acc r = a (epoch r) /\ 0 < acc r)
           (written tr) /\
    match last (map Some (written tr)) None with
    | Some r => ckpt_file w' = Some (Saved r) /\ acc r = best_acc st
    | None => ckpt_file w' = ckpt_file w
    end.
Proof.
  intros Hok Hb.
  destruct (run_inv_holds E a n (snd (log INFO MsgTrainingFromScratch w)) Hok Hb)
    as (st & w1 & Hloop & tr & Htr & Hbest & Hstored & Hpasses & Hwritten).
  exists st, (snd (log INFO (MsgBestAccuracy (best_acc st)) w1)), tr.
  split; [apply train_model_unfold; exact Hloop |].
  split; [exact Hbest |].
  split.
  { cbn. rewrite Htr. cbn. rewrite <- !app_assoc. reflexivity. }
  split; [exact Hpasses |].
  split; [exact Hwritten |].
  unfold stored_is in Hstored. rewrite (events_since_app _ _ _ Htr) in Hstored.
  exact Hstored.
Qed.

(** A run of [train_model] that has returned: its passes returned, and
    its first training stream was not empty. *)
Lemma train_model_completed (E : env) (n : nat) (w w' : world) (ok : bool) :
  train_model E n w = (Ok ok, w') ->
  (forall i, (i < n)%nat ->
     train_pass E i = Ok tt /\ val_pass E i = Ok (val_acc E i)) /\
  ((0 < n)%nat -> (0 < train_batches E 0)%nat).
Proof.
  intro H. destruct (train_model_inv E n w w' ok H) as (st & w1 & Hloop & _).
  exact (epoch_loop_completed E n _ _ _ Hloop).
Qed.

Lemma train_model_events (w w' : world) (tr : list event) (best : Q) :
  trace w' = trace w
             ++ [EvLog INFO MsgTrainingFromScratch] ++ tr
             ++ [EvLog INFO (MsgBestAccuracy best)] ->
  train_passes (events_since w w') = train_passes tr /\
  written (events_since w w') = written tr.
Proof.
  intro H. rewrite (events_since_app _ _ _ H).
  rewrite !train_passes_app, !written_app. simpl.
  rewrite !app_nil_r. split; reflexivity.
Qed.

(** C9.  In a run whose passes return normally with accuracies
    [a 0 .. a (epochs-1)] and whose first training stream is not empty,
    epoch [e] writes a checkpoint record exactly when [a e] strictly
    exceeds [0.0] and every earlier accuracy; the record then sits at
    the checkpoint path, carrying [a e] and [e], and otherwise the path
    is as the epoch found it.  When moreover all accuracies equal [0.0],
    [train_model] runs the training pass of every epoch, writes no
    record, leaves the checkpoint path as it was and returns [False].
    When the first training stream is empty, line 105 finds
    [current_lr] unbound: [train_model] raises [UnboundLocalError] in
    epoch 0, whatever the accuracies, and does not complete. *)
Theorem write_iff_new_strict_maximum :
  forall (E : env) (a : nat -> Q) (epochs : nat) (w : world),
    (forall i, (i < epochs)%nat ->
       train_pass E i = Ok tt /\ val_pass E i = Ok (a i)) ->
    ((0 < train_batches E 0)%nat ->
     (forall e, (e < epochs)%nat ->
        exists st_prev w_prev st w',
          epoch_loop E e w = (Ok st_prev, w_prev) /\
          epoch_loop E (S e) w = (Ok st, w') /\
          (written (events_since w_prev w') <> [] <->
           0 < a e /\ forall i, (i < e)%nat -> a i < a e) /\
          (0 < a e /\ (forall i, (i < e)%nat -> a i < a e) ->
           exists r, ckpt_file w' = Some (Saved r) /\
                     acc r = a e /\ epoch r = e /\
                     written (events_since w_prev w') = [r]) /\
          (~ (0 < a e /\ forall i, (i < e)%nat -> a i < a e) ->
           ckpt_file w' = ckpt_file w_prev)) /\
     ((forall i, (i < epochs)%nat -> a i == 0) ->
      exists w',
        train_model E epochs w = (Ok false, w') /\
        train_passes (events_since w w') = seq 0 epochs /\
        written (events_since w w') = [] /\
        ckpt_file w' = ckpt_file w)) /\
    ((0 < epochs)%nat -> train_batches E 0 = 0%nat ->
     exists w',
       train_model E epochs w = (Raise (Exception "UnboundLocalError"), w') /\
       train_passes (events_since w w') = [0%nat] /\
       written (events_since w w') = [] /\
       ckpt_file w' = ckpt_file w).
Proof.
  intros E a epochs w Hok. split.
  - intro Hb. split.
    + intros e He.
      destruct (epoch_loop_invariant E a e w (run_inv a w))
        as (st0 & w0 & Hloop & Hinv & Hlr).
      { intros i Hi. apply Hok. lia. }
      { intros _. exact Hb. }
      { apply run_inv_init. }
      { intros i st wi c _. apply run_inv_step. }
      destruct (Hok e He) as [Ht Hv].
      assert (Hc : exists c, logged_lr st0 (train_batches E e) = Some c).
      { unfold logged_lr. destruct e as [| e].
        - apply Nat.ltb_lt in Hb. rewrite Hb. eexists. reflexivity.
        - destruct (0 <? train_batches E (S e))%nat; [eexists; reflexivity |].
          destruct (current_lr st0) as [c |] eqn:Hcur; [exists c; reflexivity |].
          exfalso. apply Hlr; [lia | reflexivity]. }
      destruct Hc as [c Hc].
      exists st0, w0, (next_state st0 (train_batches E e) (a e)),
             (next_world st0 e (a e) c w0).
      split; [exact Hloop |].
      split.
      { rewrite epoch_loop_S. erewrite bind_ok; [| exact Hloop].
        apply epoch_body_ok; assumption. }
      destruct Hinv as (tr & _ & Hbest & _).
      rewrite events_since_next_world, written_epoch_events.
      assert (Hiff : Qgtb (a e) (best_acc st0) = true <->
                     0 < a e /\ forall i, (i < e)%nat -> a i < a e).
      { unfold Qgtb. rewrite Qltb_lt, Hbest, fold_left_Qmax_lt_iff.
        rewrite (Forall_map_seq a (fun x => x < a e) e). reflexivity. }
      cbn [next_world ckpt_file].
      destruct (Qgtb (a e) (best_acc st0)).
      * assert (Hcond := proj1 Hiff eq_refl).
        split; [split; [intros _; exact Hcond | intros _; discriminate] |].
        split.
        -- intros _. exists (epoch_checkpoint st0 e (a e)). repeat split.
        -- intro Hn. contradiction.
      * split; [split; [intro Hc'; exfalso; apply Hc'; reflexivity |] |].
        -- intro Hcond. apply Hiff in Hcond. discriminate Hcond.
        -- split; [| intros _; reflexivity].
           intro Hcond. apply Hiff in Hcond. discriminate Hcond.
    + intro Hzero.
      destruct (train_model_ok E a epochs w Hok (fun _ => Hb))
        as (st & w' & tr & Hrun & Hbest & Htr & Hpasses & Hwritten & Hlast).
      assert (Hnone : written tr = []).
      { destruct (written tr) as [| r rs]; [reflexivity |].
        inversion Hwritten as [| r' rs' (Hlt & Hacc & Hpos) _]; subst.
        rewrite Hacc, (Hzero (epoch r) Hlt) in Hpos.
        exfalso. exact (Qlt_irrefl 0 Hpos). }
      assert (Hfail : Qgtb (best_acc st) 50 = false).
      { unfold Qgtb. apply Qltb_ge. apply Qnot_lt_le. rewrite Hbest.
        rewrite fold_left_Qmax_gt_iff, Exists_map_seq.
        intros [H50 | (i & Hi & H50)].
        - discriminate H50.
        - rewrite (Hzero i Hi) in H50. discriminate H50. }
      exists w'. rewrite Hfail in Hrun.
      destruct (train_model_events _ _ _ _ Htr) as [Hp Hw].
      split; [exact Hrun |].
      split; [rewrite Hp; exact Hpasses |].
      split; [rewrite Hw; exact Hnone |].
      rewrite Hnone in Hlast. exact Hlast.
  - intros He Hb0.
    destruct (Hok 0%nat He) as [Ht Hv].
    assert (Hlr : logged_lr initial_state (train_batches E 0) = None)
      by (rewrite Hb0; reflexivity).
    exists {| ckpt_file := ckpt_file w;
              trace := trace w
                       ++ [EvLog INFO MsgTrainingFromScratch;
                           EvTrainPass 0 (Torch.lr (scheduler initial_state));
                           EvValPass 0] |}.
    split.
    + unfold train_model. erewrite bind_ok; [| reflexivity].
      erewrite bind_raise; [reflexivity |].
      unfold epoch_loop. destruct epochs as [| n]; [lia |].
      cbn [seq foldM]. erewrite bind_raise; [reflexivity |].
      rewrite (epoch_body_unbound E initial_state 0 (a 0%nat) _ Ht Hv Hlr).
      cbn. rewrite <- app_assoc. reflexivity.
    + rewrite (events_since_app w _
                 [EvLog INFO MsgTrainingFromScratch;
                  EvTrainPass 0 (Torch.lr (scheduler initial_state));
                  EvValPass 0]) by reflexivity.
      repeat split.
Qed.

Lemma write_iff_new_strict_maximum_witness :
  (exists w',
     train_model (Stub.stub_env [0; 0; 0] []) 3 Stub.fresh = (Ok false, w') /\
     train_passes (events_since Stub.fresh w') = [0; 1; 2]%nat /\
     written (events_since Stub.fresh w') = [] /\
     ckpt_file w' = None) /\
  (exists w',
     train_model (Stub.empty_stream_env [0; 0; 0]) 3 Stub.fresh
     = (Raise (Exception "UnboundLocalError"), w') /\
     train_passes (events_since Stub.fresh w') = [0%nat]).
Proof.
  split.
  - assert (Hok : forall i, (i < 3)%nat ->
              train_pass (Stub.stub_env [0; 0; 0] []) i = Ok tt /\
              val_pass (Stub.stub_env [0; 0; 0] []) i = Ok (nth i [0; 0; 0] 0)).
    { intros i Hi. destruct i as [| [| [| i]]]; [| | | lia]; split; reflexivity. }
    destruct (write_iff_new_strict_maximum
                (Stub.stub_env [0; 0; 0] []) (fun i => nth i [0; 0; 0] 0)
                3 Stub.fresh Hok) as [Hgood _].
    destruct Hgood as [_ Hzero]; [cbn; lia |].
    apply Hzero. intros i Hi.
    destruct i as [| [| [| i]]]; [| | | lia]; reflexivity.
  - assert (Hok : forall i, (i < 3)%nat ->
              train_pass (Stub.empty_stream_env [0; 0; 0]) i = Ok tt /\
              val_pass (Stub.empty_stream_env [0; 0; 0]) i = Ok (nth i [0; 0; 0] 0)).
    { intros i Hi. destruct i as [| [| [| i]]]; [| | | lia]; split; reflexivity. }
    destruct (write_iff_new_strict_maximum
                (Stub.empty_stream_env [0; 0; 0]) (fun i => nth i [0; 0; 0] 0)
                3 Stub.fresh Hok) as [_ Hslip].
    destruct Hslip as (w' & Hrun & Hpasses & _); [lia | reflexivity |].
    exists w'. split; [exact Hrun | exact Hpasses].
Defined.

(** C4.  A run of [train_model] that has completed returned [True]
    exactly when some epoch's validation accuracy strictly exceeded
    [50], that is, when the maximum of the accuracies did.  With the
    accuracies [40, 55, 52] over three epochs it returns [True] and the
    record left at the checkpoint path has accuracy [55] and epoch index
    [1]. *)
Theorem train_model_success_iff :
  (forall (E : env) (epochs : nat) (w w' : world) (ok : bool),
     train_model E epochs w = (Ok ok, w') ->
     (ok = true <->
      exists i x, (i < epochs)%nat /\ val_pass E i = Ok x /\ 50 < x) /\
     (forall (a : nat -> Q) (e : nat),
        epochs = S e ->
        (forall i, (i <= e)%nat -> val_pass E i = Ok (a i)) ->
        (ok = true <-> 50 < max_of (a 0%nat) (map a (seq 1 e))))) /\
  (exists w',
     train_model (Stub.stub_env [40; 55; 52] []) 3 Stub.fresh = (Ok true, w') /\
     ckpt_file w' =
       Some (Saved {| model_state_dict := 2; acc := 55; epoch := 1 |})).
Proof.
  split.
  - intros E epochs w w' ok Hdone.
    destruct (train_model_completed E epochs w w' ok Hdone) as [Hok Hb].
    destruct (train_model_ok E (val_acc E) epochs w Hok Hb)
      as (st & w2 & tr & Hrun & Hbest & _).
    rewrite Hdone in Hrun. inversion Hrun as [[Hverdict Hw]].
    assert (Hiff : Qgtb (best_acc st) 50 = true <->
                   exists i, (i < epochs)%nat /\ 50 < val_acc E i).
    { unfold Qgtb. rewrite Qltb_lt, Hbest.
      rewrite fold_left_Qmax_gt_iff, Exists_map_seq. split.
      - intros [H50 | Hex]; [discriminate H50 | exact Hex].
      - intro Hex. right. exact Hex. }
    split.
    + rewrite Hiff. split.
      * intros (i & Hi & H50). exists i, (val_acc E i).
        split; [exact Hi | split; [apply Hok; exact Hi | exact H50]].
      * intros (i & x & Hi & Hx & H50). exists i. split; [exact Hi |].
        unfold val_acc. rewrite Hx. exact H50.
    + intros a e -> Ha. rewrite Hiff, <- Exists_map_seq.
      unfold max_of. cbn [seq map]. rewrite fold_left_Qmax_gt_iff.
      assert (Hsame : map (val_acc E) (seq 1 e) = map a (seq 1 e)).
      { apply map_ext_in. intros i Hi. apply in_seq in Hi.
        unfold val_acc. rewrite (Ha i) by lia. reflexivity. }
      assert (H0 : val_acc E 0 = a 0%nat).
      { unfold val_acc. rewrite (Ha 0%nat) by lia. reflexivity. }
      rewrite Hsame, H0. rewrite Exists_cons. reflexivity.
  - eexists. split; reflexivity.
Qed.

Lemma train_model_success_iff_witness :
  exists ok w',
    train_model (Stub.stub_env [40; 55; 52] []) 3 Stub.fresh = (Ok ok, w') /\
    (ok = true <->
     exists i x, (i < 3)%nat /\
                 val_pass (Stub.stub_env [40; 55; 52] []) i = Ok x /\ 50 < x).
Proof.
  destruct train_model_success_iff as [Hgen _].
  remember (train_model (Stub.stub_env [40; 55; 52] []) 3 Stub.fresh) as out eqn:Hout.
  assert (Hfst : exists ok, fst out = Ok ok)
    by (rewrite Hout; vm_compute; eexists; reflexivity).
  destruct out as [res w']. cbn in Hfst. destruct Hfst as [ok ->].
  destruct (Hgen (Stub.stub_env [40; 55; 52] []) 3%nat Stub.fresh w' ok (eq_sym Hout))
    as [Hiff _].
  exists ok, w'. split; [reflexivity | exact Hiff].
Defined.

(** ** The learning-rate schedule *)

Lemma rate_at_cases (e : nat) :
  ((e < 60)%nat -> rate_at e = 0.1%float) /\
  ((60 <= e < 120)%nat -> rate_at e = 0.020000000000000004%float) /\
  ((120 <= e < 160)%nat -> rate_at e = 0.004000000000000001%float) /\
  ((160 <= e)%nat -> rate_at e = 0.0008000000000000003%float).
Proof.
  unfold rate_at, milestones_passed. cbn [filter].
  destruct (Z.leb_spec 60 (Z.of_nat e));
    destruct (Z.leb_spec 120 (Z.of_nat e));
    destruct (Z.leb_spec 160 (Z.of_nat e));
    repeat split; intro; try lia; reflexivity.
Qed.


(** The rate changes at the three milestones, by one binary64
    multiplication with [gamma], and nowhere else. *)
Lemma rate_at_step (e : nat) :
  (S e = 60%nat \/ S e = 120%nat \/ S e = 160%nat ->
   rate_at (S e) = (rate_at e * 0.2)%float) /\
  (~ (S e = 60%nat \/ S e = 120%nat \/ S e = 160%nat) ->
   rate_at (S e) = rate_at e).
Proof.
  destruct (rate_at_cases e) as (A1 & A2 & A3 & A4).
  destruct (rate_at_cases (S e)) as (B1 & B2 & B3 & B4).
  split.
  - intros [H | [H | H]].
    + rewrite A1, B2 by lia. reflexivity.
    + rewrite A2, B3 by lia. reflexivity.
    + rewrite A3, B4 by lia. reflexivity.
  - intro H.
    destruct (Nat.lt_ge_cases (S e) 60); [rewrite A1, B1 by lia; reflexivity |].
    destruct (Nat.lt_ge_cases (S e) 120); [rewrite A2, B2 by lia; reflexivity |].
    destruct (Nat.lt_ge_cases (S e) 160); [rewrite A3, B3 by lia; reflexivity |].
    rewrite A4, B4 by lia. reflexivity.
Qed.

(** The scheduler as the loop finds it at the start of epoch [e]. *)
Lemma scheduler_step_closed (e : nat) :
  Torch.step
    {| Torch.milestones := [60; 120; 160]%Z; Torch.gamma := 0.2%float;
       Torch.last_epoch := Z.of_nat e; Torch.lr := rate_at e |}
  = {| Torch.milestones := [60; 120; 160]%Z; Torch.gamma := 0.2%float;
       Torch.last_epoch := Z.of_nat (S e);
       Torch.lr := rate_at (S e) |}.
Proof.
  unfold Torch.step. cbn [Torch.milestones Torch.gamma Torch.last_epoch Torch.lr].
  rewrite Nat2Z.inj_succ, <- Z.add_1_r.
  f_equal.
  destruct (rate_at_cases e) as (A1 & A2 & A3 & A4).
  destruct (rate_at_cases (S e)) as (B1 & B2 & B3 & B4).
  remember (Z.of_nat e + 1)%Z as z eqn:Hz.
  destruct (Z.eq_dec z 60) as [-> | N1].
  { rewrite A1, B2 by lia. reflexivity. }
  destruct (Z.eq_dec z 120) as [-> | N2].
  { rewrite A2, B3 by lia. reflexivity. }
  destruct (Z.eq_dec z 160) as [-> | N3].
  { rewrite A3, B4 by lia. reflexivity. }
  cbn [existsb].
  apply Z.eqb_neq in N1, N2, N3. rewrite N1, N2, N3. cbn [orb].
  apply Z.eqb_neq in N1, N2, N3.
  destruct (Nat.lt_ge_cases (S e) 60); [rewrite A1, B1 by lia; reflexivity |].
  destruct (Nat.lt_ge_cases (S e) 120); [rewrite A2, B2 by lia; reflexivity |].
  destruct (Nat.lt_ge_cases (S e) 160); [rewrite A3, B3 by lia; reflexivity |].
  rewrite A4, B4 by lia. reflexivity.
Qed.

Lemma schedule_events_epoch (st : train_state) (e : nat) (a : Q) (c : float) :
  schedule_events (epoch_events st e a c) =
  [EvTrainPass e (Torch.lr (scheduler st)); EvValPass e; EvSchedulerStep].
Proof.
  unfold epoch_events. destruct (Qgtb a (best_acc st)); reflexivity.
Qed.

Lemma train_rates_app (tr1 tr2 : list event) :
  train_rates (tr1 ++ tr2) = train_rates tr1 ++ train_rates tr2.
Proof.
  induction tr1 as [| ev tr1 IH]; [reflexivity |].
  destruct ev; cbn [app train_rates]; rewrite IH; reflexivity.
Qed.

Lemma train_rates_epoch_events (st : train_state) (e : nat) (a : Q) (c : float) :
  train_rates (epoch_events st e a c) = [Torch.lr (scheduler st)].
Proof.
  unfold epoch_events. destruct (Qgtb a (best_acc st)); reflexivity.
Qed.

(** What a completed loop leaves in the trace about the schedule. *)
Lemma schedule_run (E : env) (n : nat) (w w' : world) (st : train_state) :
  epoch_loop E n w = (Ok st, w') ->
  schedule_events (events_since w w') =
    flat_map (fun e => [EvTrainPass e (rate_at e); EvValPass e; EvSchedulerStep])
             (seq 0 n) /\
  train_rates (events_since w w') = map rate_at (seq 0 n).
Proof.
  intro Hrun.
  destruct (epoch_loop_completed E n w w' st Hrun) as [Hok Hb].
  destruct (epoch_loop_invariant E (val_acc E) n w
              (fun i st wi =>
                 scheduler st =
                   {| Torch.milestones := [60; 120; 160]%Z;
                      Torch.gamma := 0.2%float;
                      Torch.last_epoch := Z.of_nat i;
                      Torch.lr := rate_at i |} /\
                 exists tr,
                   trace wi = trace w ++ tr /\
                   schedule_events tr =
                     flat_map (fun e => [EvTrainPass e (rate_at e);
                                         EvValPass e;
                                         EvSchedulerStep])
                              (seq 0 i) /\
                   train_rates tr = map rate_at (seq 0 i)) Hok Hb)
    as (st2 & w2 & Hloop & (Hsched & tr & Htr & Hev & Hrates) & _).
  - split; [reflexivity |].
    exists []. split; [symmetry; apply app_nil_r | split; reflexivity].
  - intros i st1 wi c _ (Hs & tr & Htr & Hev & Hrates). split.
    + cbn [next_state scheduler]. rewrite Hs. apply scheduler_step_closed.
    + exists (tr ++ epoch_events st1 i (val_acc E i) c). split; [| split].
      * unfold next_world. cbn [trace]. rewrite Htr, app_assoc. reflexivity.
      * unfold schedule_events in *. rewrite filter_app, Hev.
        rewrite seq_S, flat_map_app. f_equal.
        fold (schedule_events (epoch_events st1 i (val_acc E i) c)).
        rewrite schedule_events_epoch, Hs. cbn. reflexivity.
      * rewrite train_rates_app, Hrates, train_rates_epoch_events, Hs.
        rewrite seq_S, map_app. reflexivity.
  - rewrite Hrun in Hloop. inversion Hloop; subst st2 w2.
    rewrite (events_since_app _ _ _ Htr). split; assumption.
Qed.




(** ** The checkpoint gate *)

Lemma lift_inv {A : Type} (r : result A) (w w' : world) (x : A) :
  lift r w = (Ok x, w') -> r = Ok x /\ w' = w.
Proof. unfold lift. intro H. inversion H. split; reflexivity. Qed.

Lemma verify_checkpoint_present (E : env) (w : world) (f : file) :
  ckpt_file w = Some f -> verify_checkpoint E w = (Ok true, w).
Proof.
  intro H. unfold verify_checkpoint, bind, path_exists. rewrite H. reflexivity.
Qed.

(** When the gate answers [False], the path was empty and [train_model]
    ran to its end and answered [False]. *)
Lemma verify_checkpoint_false_inv (E : env) (w w' : world) :
  verify_checkpoint E w = (Ok false, w') ->
  ckpt_file w = None /\
  exists w1 w2,
    trace w1 = trace w ++ [EvLog INFO MsgNotFound] /\
    train_model E 200 w1 = (Ok false, w2) /\
    trace w' = trace w2 ++ [EvLog ERROR MsgTrainFailed].
Proof.
  unfold verify_checkpoint. unfold bind at 1. unfold path_exists.
  destruct (ckpt_file w) as [f |] eqn:Hf; cbn [negb].
  - intro H. inversion H.
  - intro H. split; [reflexivity |].
    apply bind_inv in H. destruct H as ([] & w1 & Hlog & H).
    apply bind_inv in H. destruct H as (ds1 & w1a & Hd1 & H).
    apply lift_inv in Hd1. destruct Hd1 as [_ ->].
    apply bind_inv in H. destruct H as (ds2 & w1b & Hd2 & H).
    apply lift_inv in Hd2. destruct Hd2 as [_ ->].
    apply bind_inv in H. destruct H as ([] & w1c & Hm & H).
    apply lift_inv in Hm. destruct Hm as [_ ->].
    apply bind_inv in H. destruct H as (trained & w2 & Htrain & H).
    destruct trained; cbn in H; [inversion H |].
    exists w1, w2. inversion Hlog. inversion H.
    repeat split. subst w1. exact Htrain.
Qed.

(** C5.  When something sits at the checkpoint path, whatever it is,
    [verify_checkpoint] returns [True] and leaves the world as it found
    it: no training pass, no event at all, and the stored accuracy is
    not looked at; so does a second call right after the first.  When
    [verify_checkpoint] returns [False], the path was empty, all 200
    training passes ran, and no validation accuracy exceeded [50]. *)
Theorem verify_checkpoint_reuses_existing :
  forall (E : env) (w : world),
    (forall f, ckpt_file w = Some f ->
       verify_checkpoint E w = (Ok true, w) /\
       (verify_checkpoint E ;; verify_checkpoint E) w = (Ok true, w)) /\
    (forall w', verify_checkpoint E w = (Ok false, w') ->
       ckpt_file w = None /\
       train_passes (events_since w w') = seq 0 200 /\
       (forall i, (i < 200)%nat ->
          exists a, train_pass E i = Ok tt /\ val_pass E i = Ok a /\ a <= 50)).
Proof.
  intros E w. split.
  - intros f Hf. pose proof (verify_checkpoint_present E w f Hf) as H.
    split; [exact H |].
    erewrite bind_ok; [| exact H]. exact H.
  - intros w' H.
    apply verify_checkpoint_false_inv in H.
    destruct H as (Hnone & w1 & w2 & Hw1 & Htrain & Hw').
    split; [exact Hnone |].
    destruct (train_model_inv E 200 w1 w2 false Htrain) as (st & w3 & Hloop & _ & _).
    destruct (epoch_loop_completed E 200 _ _ _ Hloop) as [Hok Hb].
    set (a := val_acc E) in Hok.
    destruct (train_model_ok E a 200 w1 Hok Hb)
      as (st' & w2' & tr & Hrun & Hbest & Htr & Htp & _).
    rewrite Htrain in Hrun. inversion Hrun as [[Hverdict Hw2]].
    split.
    + rewrite (events_since_app w w'
                 ([EvLog INFO MsgNotFound; EvLog INFO MsgTrainingFromScratch]
                  ++ tr ++ [EvLog INFO (MsgBestAccuracy (best_acc st'));
                            EvLog ERROR MsgTrainFailed])).
      * rewrite !train_passes_app. cbn [train_passes app].
        rewrite app_nil_r. exact Htp.
      * rewrite Hw', Hw2, Htr, Hw1. rewrite <- !app_assoc. reflexivity.
    + intros i Hi. destruct (Hok i Hi) as [Ht Hv].
      exists (a i). split; [exact Ht | split; [exact Hv |]].
      apply Qnot_lt_le. intro H50.
      assert (Hgt : Qgtb (best_acc st') 50 = true).
      { unfold Qgtb. apply Qltb_lt. rewrite Hbest.
        apply fold_left_Qmax_gt_iff. right. apply Exists_map_seq.
        exists i. split; [exact Hi | exact H50]. }
      rewrite Hgt in Hverdict. discriminate Hverdict.
Qed.

Lemma verify_checkpoint_reuses_existing_witness :
  verify_checkpoint (Stub.stub_env [] [])
    (Stub.with_checkpoint (Saved {| model_state_dict := 0; acc := 0; epoch := 0 |}))
  = (Ok true,
     Stub.with_checkpoint (Saved {| model_state_dict := 0; acc := 0; epoch := 0 |})).
Proof.
  destruct (verify_checkpoint_reuses_existing (Stub.stub_env [] [])
              (Stub.with_checkpoint
                 (Saved {| model_state_dict := 0; acc := 0; epoch := 0 |})))
    as [Hreuse _].
  destruct (Hreuse (Saved {| model_state_dict := 0; acc := 0; epoch := 0 |}))
    as [Hfirst _].
  - reflexivity.
  - exact Hfirst.
Defined.

(** ** Dataset views *)

Lemma firstn_snoc {A : Type} (l : list A) (k : nat) (x : A) :
  nth_error l k = Some x -> firstn (S k) l = firstn k l ++ [x].
Proof.
  revert k. induction l as [| y l IH]; intros k H.
  - destruct k; discriminate H.
  - destruct k as [| k].
    + simpl in H. inversion H. reflexivity.
    + simpl in H. change (y :: firstn (S k) l = y :: (firstn k l ++ [x])).
      f_equal. apply IH. exact H.
Qed.

Lemma Subset_seq {A : Type} (dataset : list A) (k : nat) :
  (k <= List.length dataset)%nat ->
  Subset dataset (map Z.of_nat (seq 0 k)) = firstn k dataset.
Proof.
  induction k as [| k IH]; intro Hk.
  - reflexivity.
  - unfold Subset in *. rewrite seq_S, map_app, flat_map_app, IH by lia.
    cbn [seq map flat_map Nat.add]. rewrite Nat2Z.id, app_nil_r.
    destruct (nth_error dataset k) as [x |] eqn:Hx.
    + symmetry. apply firstn_snoc. exact Hx.
    + apply nth_error_None in Hx. lia.
Qed.

Lemma Subset_range_min {A : Type} (dataset : list A) (n : Z) :
  Subset dataset (range (min n (len dataset))) =
  firstn (Z.to_nat (min n (len dataset))) dataset.
Proof.
  unfold range. apply Subset_seq. unfold min, len. lia.
Qed.

(** C6.  With a cap configured ([subset_size] is truthy), the train
    view is the first [min(subset_size, len(train))] samples of the train
    split and the test view the first [min(subset_size // 5, len(test))]
    samples of the test split; neither is longer than its split, and for
    a positive cap the lengths are exactly these minima.  A cap of 5000
    on a train split of 4000 samples gives 4000, and on a test split of
    100000 samples gives 1000. *)
Theorem subset_truncation :
  forall (A : Type) (subset_size : Z) (train test : list A),
    subset_size <> 0%Z ->
    fst (dataset_views subset_size train test)
      = firstn (Z.to_nat (min subset_size (len train))) train /\
    snd (dataset_views subset_size train test)
      = firstn (Z.to_nat (min (subset_size / 5) (len test))) test /\
    (len (fst (dataset_views subset_size train test)) <= len train)%Z /\
    (len (snd (dataset_views subset_size train test)) <= len test)%Z /\
    ((0 < subset_size)%Z ->
       len (fst (dataset_views subset_size train test))
         = min subset_size (len train) /\
       len (snd (dataset_views subset_size train test))
         = min (subset_size / 5) (len test)) /\
    (subset_size = 5000%Z -> len train = 4000%Z ->
       len (fst (dataset_views subset_size train test)) = 4000%Z) /\
    (subset_size = 5000%Z -> len test = 100000%Z ->
       len (snd (dataset_views subset_size train test)) = 1000%Z).
Proof.
  intros A subset_size train test Hs.
  unfold dataset_views.
  apply Z.eqb_neq in Hs. rewrite Hs. cbn [fst snd].
  rewrite !Subset_range_min.
  assert (Hlen : forall (l : list A) (n : Z),
            len (firstn (Z.to_nat (min n (len l))) l)
            = Z.max 0 (Z.min n (len l))).
  { intros l n. unfold len, min. rewrite length_firstn. lia. }
  repeat split.
  - rewrite Hlen. unfold len. lia.
  - rewrite Hlen. unfold len. lia.
  - rewrite Hlen. unfold min, len. lia.
  - rewrite Hlen. unfold min, len.
    assert (0 <= subset_size / 5)%Z by (apply Z.div_pos; lia). lia.
  - intros -> Ht. rewrite Hlen, Ht. reflexivity.
  - intros -> Ht. rewrite Hlen, Ht. reflexivity.
Qed.

Lemma subset_truncation_witness :
  fst (dataset_views 2 (Stub.dataset 3) (Stub.dataset 2)) = Stub.dataset 2 /\
  snd (dataset_views 2 (Stub.dataset 3) (Stub.dataset 2)) = [].
Proof.
  destruct (subset_truncation sample 2 (Stub.dataset 3) (Stub.dataset 2))
    as (Htrain & Htest & _).
  - discriminate.
  - split; [rewrite Htrain | rewrite Htest]; reflexivity.
Defined.

(** ** The orchestrator *)

Lemma In_dict_set_inv {V : Type} (k : string) (v : V) (d : dict V) (x : string * V) :
  In x (dict_set k v d) -> x = (k, v) \/ In x d.
Proof.
  induction d as [| [k' v'] d IH]; simpl.
  - intros [H | []]. left. symmetry. exact H.
  - destruct (String.eqb k k'); simpl.
    + intros [H | H]; [left; symmetry; exact H | right; right; exact H].
    + intros [H | H]; [right; left; exact H |].
      destruct (IH H) as [G | G]; [left; exact G | right; right; exact G].
Qed.

Lemma In_dict_set_same {V : Type} (k : string) (v : V) (d : dict V) :
  In (k, v) (dict_set k v d).
Proof.
  induction d as [| [k' v'] d IH]; simpl.
  - left. reflexivity.
  - destruct (String.eqb k k'); simpl; [left; reflexivity | right; exact IH].
Qed.

Lemma In_dict_set_other {V : Type} (k k' : string) (v v' : V) (d : dict V) :
  k' <> k -> In (k', v') d -> In (k', v') (dict_set k v d).
Proof.
  intro Hne. induction d as [| [k0 v0] d IH]; simpl.
  - intros [].
  - destruct (String.eqb_spec k k0) as [-> | Hk]; simpl.
    + intros [H | H]; [inversion H; subst; contradiction | right; exact H].
    + intros [H | H]; [left; exact H | right; exact (IH H)].
Qed.

Ltac step_lift H :=
  erewrite bind_ok; [| unfold lift; rewrite H; reflexivity].

Ltac raise_lift H :=
  erewrite bind_raise; [| unfold lift; rewrite H; reflexivity].

(** The evaluation loop over classifiers that all go through, started
    with the results [d]: it ends normally, touches nothing but the
    trace, and the results hold exactly [d]'s surviving entries and one
    entry per classifier. *)
Lemma evaluate_fold_ok (E : env) (train_f test_f : extracted)
    (te : string -> Q * Q * Q) (clfs : list string) (d : dict metrics) (w : world) :
  (forall c, In c clfs -> train_and_evaluate E c train_f test_f = Ok (te c)) ->
  exists results w',
    foldM (fun results clf_name =>
             log INFO (MsgTraining clf_name) ;;
             r <- lift (train_and_evaluate E clf_name train_f test_f) ;;
             ret (dict_set clf_name (make_metrics r) results))
          clfs d w = (Ok results, w') /\
    ckpt_file w' = ckpt_file w /\
    (forall k m, In (k, m) results ->
       In (k, m) d \/ (In k clfs /\ m = make_metrics (te k))) /\
    (forall k, In k clfs -> In (k, make_metrics (te k)) results) /\
    (forall k m, In (k, m) d -> In (k, m) results \/ In k clfs).
Proof.
  revert d w. induction clfs as [| c clfs IH]; intros d w Hok.
  - exists d, w. cbn. repeat split.
    + intros k m H. left. exact H.
    + intros k [].
    + intros k m H. left. exact H.
  - destruct (IH (dict_set c (make_metrics (te c)) d)
                (snd (log INFO (MsgTraining c) w)))
      as (results & w' & Hrun & Hfile & P1 & P2 & P3).
    { intros c' Hc'. apply Hok. right. exact Hc'. }
    exists results, w'. split.
    { cbn [foldM]. erewrite bind_ok; [exact Hrun |].
      unfold bind at 1. cbn. unfold bind, lift, ret.
      rewrite (Hok c (or_introl eq_refl)). reflexivity. }
    split; [rewrite Hfile; reflexivity |].
    split; [| split].
    + intros k m H. destruct (P1 k m H) as [G | [G1 G2]].
      * apply In_dict_set_inv in G. destruct G as [G | G].
        -- inversion G; subst. right. split; [left; reflexivity | reflexivity].
        -- left. exact G.
      * right. split; [right; exact G1 | exact G2].
    + intros k [<- | Hk].
      * destruct (P3 c (make_metrics (te c)) (In_dict_set_same _ _ _)) as [G | G].
        -- exact G.
        -- apply P2. exact G.
      * apply P2. exact Hk.
    + intros k m H. destruct (string_dec k c) as [-> | Hne].
      * right. left. reflexivity.
      * destruct (P3 k m (In_dict_set_other c k _ m d Hne H)) as [G | G].
        -- left. exact G.
        -- right. right. exact G.
Qed.

Lemma log_results_ok (results : dict metrics) (w : world) :
  exists w', log_results results w = (Ok tt, w') /\ ckpt_file w' = ckpt_file w.
Proof.
  assert (G : forall (d : dict metrics) (w1 : world),
            exists w', foldM (fun _ kv => log INFO (MsgResult (fst kv) (snd kv)))
                         d tt w1 = (Ok tt, w') /\
                       ckpt_file w' = ckpt_file w1).
  { induction d as [| kv d IH]; intro w1.
    - exists w1. split; reflexivity.
    - destruct (IH (snd (log INFO (MsgResult (fst kv) (snd kv)) w1)))
        as (w' & Hrun & Hfile).
      exists w'. split; [| exact Hfile].
      cbn [foldM]. erewrite bind_ok; [exact Hrun | reflexivity]. }
  destruct (G results (snd (log INFO MsgResultsHeader w))) as (w' & Hrun & Hfile).
  exists w'. split; [| exact Hfile].
  unfold log_results. erewrite bind_ok; [exact Hrun | reflexivity].
Qed.

Lemma all_below_floor_iff (results : dict metrics) :
  all_below_floor results = true <->
  forall m, In m (values results) -> accuracy m < 10.
Proof.
  unfold all_below_floor. rewrite forallb_forall. split.
  - intros H m Hm. apply Qltb_lt. apply H. exact Hm.
  - intros H m Hm. apply Qltb_lt. apply H. exact Hm.
Qed.

Lemma try_except_ok {A : Type} (body : M A) (handler : exn -> M A)
    (w w' : world) (x : A) :
  body w = (Ok x, w') -> try_except body handler w = (Ok x, w').
Proof. intro H. unfold try_except. rewrite H. reflexivity. Qed.

Lemma try_except_caught {A : Type} (body : M A) (handler : exn -> M A)
    (w w' : world) (name : string) :
  body w = (Raise (Exception name), w') ->
  try_except body handler w = handler (Exception name) w'.
Proof. intro H. unfold try_except. rewrite H. reflexivity. Qed.

(** Past the gate, the orchestrator is its [try] statement. *)
Lemma run_after_gate (E : env) (s : Z) (w wv : world) :
  verify_checkpoint E (snd (log INFO (MsgStep1 s) w)) = (Ok true, wv) ->
  run_cifar100_experiment E s w
  = try_except (experiment_body E s) experiment_handler wv.
Proof.
  intro H. unfold run_cifar100_experiment.
  erewrite bind_ok; [| reflexivity].
  erewrite bind_ok; [| exact H]. reflexivity.
Qed.

(** The [try] body when no collaborator raises. *)
Lemma experiment_body_ok (E : env) (s : Z) (w : world)
    (clfs : list string) (train test : list sample) (train_f test_f : extracted)
    (te : string -> Q * Q * Q) :
  new_experiment E s = Ok clfs ->
  get_dataset E true false = Ok train ->
  get_dataset E false false = Ok test ->
  extract_features E (fst (dataset_views s train test)) = Ok train_f ->
  extract_features E (snd (dataset_views s train test)) = Ok test_f ->
  (forall c, In c clfs -> train_and_evaluate E c train_f test_f = Ok (te c)) ->
  exists results w',
    experiment_body E s w = (Ok (negb (all_below_floor results)), w') /\
    ckpt_file w' = ckpt_file w /\
    (clfs = [] -> results = []) /\
    (forall m, In m (values results) <->
               exists c, In c clfs /\ m = make_metrics (te c)).
Proof.
  intros He Htr Hte Hftr Hfte Hclf.
  destruct (evaluate_fold_ok E train_f test_f te clfs [] w Hclf)
    as (results & w1 & Hrun & Hfile1 & P1 & P2 & _).
  destruct (log_results_ok results w1) as (w2 & Hlog & Hfile2).
  exists results.
  exists (if all_below_floor results
          then snd (log ERROR MsgPoorResults w2) else w2).
  split; [| split; [| split]].
  - unfold experiment_body.
    step_lift He. step_lift Htr. step_lift Hte. cbv zeta.
    step_lift Hftr. step_lift Hfte.
    erewrite bind_ok; [| exact Hrun].
    erewrite bind_ok; [| exact Hlog].
    destruct (all_below_floor results); reflexivity.
  - destruct (all_below_floor results); cbn;
      rewrite Hfile2, Hfile1; reflexivity.
  - intros ->. cbn in Hrun. inversion Hrun. reflexivity.
  - intro m. unfold values. rewrite in_map_iff. split.
    + intros ([k m'] & <- & Hin). destruct (P1 k m' Hin) as [[] | [Hk ->]].
      exists k. split; [exact Hk | reflexivity].
    + intros (c & Hc & ->). exists (c, make_metrics (te c)).
      split; [reflexivity | apply P2; exact Hc].
Qed.

(** C2.  Past the checkpoint gate and with every collaborator
    returning normally, [run_cifar100_experiment] returns [False]
    exactly when the accuracy of every configured classifier is
    strictly below [10.0].  Accuracies [9.9, 9.9] give [False];
    accuracies [9.9, 10.0] give [True]. *)
Theorem quality_gate_iff :
  (forall (E : env) (s : Z) (w wv : world)
          (clfs : list string) (train test : list sample)
          (train_f test_f : extracted) (te : string -> Q * Q * Q),
     verify_checkpoint E (snd (log INFO (MsgStep1 s) w)) = (Ok true, wv) ->
     new_experiment E s = Ok clfs ->
     get_dataset E true false = Ok train ->
     get_dataset E false false = Ok test ->
     extract_features E (fst (dataset_views s train test)) = Ok train_f ->
     extract_features E (snd (dataset_views s train test)) = Ok test_f ->
     (forall c, In c clfs -> train_and_evaluate E c train_f test_f = Ok (te c)) ->
     exists ok w',
       run_cifar100_experiment E s w = (Ok ok, w') /\
       (ok = false <->
        forall c, In c clfs -> accuracy (make_metrics (te c)) < 10)) /\
  fst (run_cifar100_experiment
         (Stub.stub_env [] [("svm", 99 # 10); ("knn", 99 # 10)]%string) 5000
         (Stub.with_checkpoint Partial)) = Ok false /\
  fst (run_cifar100_experiment
         (Stub.stub_env [] [("svm", 99 # 10); ("knn", 10)]%string) 5000
         (Stub.with_checkpoint Partial)) = Ok true.
Proof.
  split; [| split; reflexivity].
  intros E s w wv clfs train test train_f test_f te Hgate He Htr Hte Hftr Hfte Hclf.
  destruct (experiment_body_ok E s wv clfs train test train_f test_f te
              He Htr Hte Hftr Hfte Hclf)
    as (results & w' & Hbody & _ & _ & Hvalues).
  exists (negb (all_below_floor results)), w'. split.
  - rewrite (run_after_gate E s w wv Hgate).
    apply try_except_ok. exact Hbody.
  - rewrite Bool.negb_false_iff, all_below_floor_iff. split.
    + intros H c Hc. apply H. apply Hvalues. exists c. split; [exact Hc | reflexivity].
    + intros H m Hm. apply Hvalues in Hm. destruct Hm as (c & Hc & ->).
      apply H. exact Hc.
Qed.

Lemma quality_gate_iff_witness :
  exists ok w',
    run_cifar100_experiment
      (Stub.stub_env [] [("svm", 99 # 10); ("knn", 10)]%string) 5000
      (Stub.with_checkpoint Partial) = (Ok ok, w') /\
    (ok = false <->
     forall c, In c ["svm"; "knn"]%string ->
       accuracy (make_metrics
                   (0, 0, if String.eqb c "svm" then 99 # 10 else 10)) < 10).
Proof.
  destruct quality_gate_iff as [Hgen _].
  apply (Hgen (Stub.stub_env [] [("svm", 99 # 10); ("knn", 10)]%string) 5000%Z
              (Stub.with_checkpoint Partial)
              (snd (log INFO (MsgStep1 5000) (Stub.with_checkpoint Partial)))
              ["svm"; "knn"]%string (Stub.dataset 3) (Stub.dataset 2)
              (Stub.extract (Stub.dataset 3)) (Stub.extract (Stub.dataset 2))
              (fun c => (0, 0, if String.eqb c "svm" then 99 # 10 else 10)));
    try reflexivity.
  intros c [<- | [<- | []]]; reflexivity.
Defined.

Lemma main_after_prelude (E : env) (w w0 w' : world) (ok : bool) :
  main_prelude E w = (Ok tt, w0) ->
  run_cifar100_experiment E 5000 w0 = (Ok ok, w') ->
  fst (main E w) = if ok then Returned else SysExit 1.
Proof.
  intros Hp Hr. unfold main.
  erewrite bind_ok; [| exact Hp]. rewrite Hr.
  destruct ok; reflexivity.
Qed.

(** C10.  With an empty classifier set (and the gate passed, the splits
    loaded and the features extracted), the evaluation loop yields the
    empty result collection, over which the check of line 240 holds
    vacuously; [run_cifar100_experiment] returns [False] and the process
    exits with status 1. *)
Theorem empty_classifier_set_fails :
  forall (E : env) (w w0 wv : world) (train test : list sample)
         (train_f test_f : extracted),
    main_prelude E w = (Ok tt, w0) ->
    verify_checkpoint E (snd (log INFO (MsgStep1 5000) w0)) = (Ok true, wv) ->
    new_experiment E 5000 = Ok [] ->
    get_dataset E true false = Ok train ->
    get_dataset E false false = Ok test ->
    extract_features E (fst (dataset_views 5000 train test)) = Ok train_f ->
    extract_features E (snd (dataset_views 5000 train test)) = Ok test_f ->
    (forall w1, evaluate_classifiers E [] train_f test_f w1 = (Ok [], w1)) /\
    all_below_floor [] = true /\
    (exists w', run_cifar100_experiment E 5000 w0 = (Ok false, w')) /\
    exit_status (fst (main E w)) = 1%Z.
Proof.
  intros E w w0 wv train test train_f test_f Hp Hgate He Htr Hte Hftr Hfte.
  split; [intro w1; reflexivity |].
  split; [reflexivity |].
  destruct (experiment_body_ok E 5000 wv [] train test train_f test_f
              (fun _ => (0, 0, 0)) He Htr Hte Hftr Hfte)
    as (results & w' & Hbody & _ & Hempty & _).
  { intros c []. }
  rewrite (Hempty eq_refl) in Hbody. cbn [all_below_floor values map forallb negb] in Hbody.
  assert (Hrun : run_cifar100_experiment E 5000 w0 = (Ok false, w')).
  { rewrite (run_after_gate E 5000 w0 wv Hgate).
    apply try_except_ok. exact Hbody. }
  split; [exists w'; exact Hrun |].
  rewrite (main_after_prelude E w w0 w' false Hp Hrun). reflexivity.
Qed.

Lemma empty_classifier_set_fails_witness :
  exit_status (fst (main (Stub.stub_env [] []) (Stub.with_checkpoint Partial))) = 1%Z.
Proof.
  apply (empty_classifier_set_fails (Stub.stub_env [] [])
           (Stub.with_checkpoint Partial)
           (snd (main_prelude (Stub.stub_env [] []) (Stub.with_checkpoint Partial)))
           (snd (log INFO (MsgStep1 5000)
                   (snd (main_prelude (Stub.stub_env [] [])
                           (Stub.with_checkpoint Partial)))))
           (Stub.dataset 3) (Stub.dataset 2)
           (Stub.extract (Stub.dataset 3)) (Stub.extract (Stub.dataset 2)));
    reflexivity.
Defined.

(** ** Fault containment *)

Lemma experiment_body_fault (E : env) (s : Z) (e : exn) (w : world) :
  stage_fault E s e -> exists w', experiment_body E s w = (Raise e, w').
Proof.
  intro Hf. unfold experiment_body.
  destruct Hf as [He | clfs He Htr | clfs train He Htr Hte
                  | clfs train test He Htr Hte Hftr
                  | clfs train test train_f He Htr Hte Hftr Hfte
                  | done rest c train test train_f test_f He Htr Hte Hftr Hfte Hdone Hc].
  - eexists. raise_lift He. reflexivity.
  - eexists. step_lift He. raise_lift Htr. reflexivity.
  - eexists. step_lift He. step_lift Htr. raise_lift Hte. reflexivity.
  - eexists. step_lift He. step_lift Htr. step_lift Hte. cbv zeta.
    raise_lift Hftr. reflexivity.
  - eexists. step_lift He. step_lift Htr. step_lift Hte. cbv zeta.
    step_lift Hftr. raise_lift Hfte. reflexivity.
  - destruct (evaluate_fold_ok E train_f test_f
                (fun c' => match train_and_evaluate E c' train_f test_f with
                           | Ok r => r
                           | Raise _ => (0, 0, 0)
                           end) done [] w)
      as (d & w1 & Hrun & _).
    { intros c' Hc'. destruct (Hdone c' Hc') as [r ->]. reflexivity. }
    eexists. step_lift He. step_lift Htr. step_lift Hte. cbv zeta.
    step_lift Hftr. step_lift Hfte.
    erewrite bind_raise; [reflexivity |].
    unfold evaluate_classifiers. rewrite foldM_app.
    erewrite bind_ok; [| exact Hrun].
    cbn [foldM]. erewrite bind_raise; [reflexivity |].
    erewrite bind_ok; [| reflexivity].
    raise_lift Hc. reflexivity.
Qed.

(** C7.  Past the checkpoint gate, an exception (of class [Exception])
    raised while building the experiment, loading a split, extracting
    features, or fitting and scoring a classifier is caught:
    [run_cifar100_experiment] logs the error and returns [False], and
    the process exits with status 1.  In every run the exit status is 0
    exactly when [run_cifar100_experiment] returned [True].  With
    feature extraction failing on the test view, the process exits with
    status 1. *)
Theorem stage_errors_are_contained :
  (forall (E : env) (s : Z) (w wv : world) (name : string),
     verify_checkpoint E (snd (log INFO (MsgStep1 s) w)) = (Ok true, wv) ->
     stage_fault E s (Exception name) ->
     exists w' tr,
       run_cifar100_experiment E s w = (Ok false, w') /\
       trace w' = tr ++ [EvLog ERROR (MsgError (Exception name));
                         EvLog ERROR MsgTraceback;
                         EvLog ERROR MsgPoorResults]) /\
  (forall (E : env) (w w0 wv : world) (name : string),
     main_prelude E w = (Ok tt, w0) ->
     verify_checkpoint E (snd (log INFO (MsgStep1 5000) w0)) = (Ok true, wv) ->
     stage_fault E 5000 (Exception name) ->
     fst (main E w) = SysExit 1 /\ exit_status (fst (main E w)) <> 0%Z) /\
  (forall (E : env) (w : world),
     exit_status (fst (main E w)) = 0%Z <->
     exists w0 w',
       main_prelude E w = (Ok tt, w0) /\
       run_cifar100_experiment E 5000 w0 = (Ok true, w')) /\
  exit_status
    (fst (main (Stub.faulty_extraction_env [("svm", 60)]%string)
               (Stub.with_checkpoint Partial))) = 1%Z.
Proof.
  assert (Hcaught : forall (E : env) (s : Z) (w wv : world) (name : string),
            verify_checkpoint E (snd (log INFO (MsgStep1 s) w)) = (Ok true, wv) ->
            stage_fault E s (Exception name) ->
            exists w' tr,
              run_cifar100_experiment E s w = (Ok false, w') /\
              trace w' = tr ++ [EvLog ERROR (MsgError (Exception name));
                                EvLog ERROR MsgTraceback;
                                EvLog ERROR MsgPoorResults]).
  { intros E s w wv name Hgate Hfault.
    destruct (experiment_body_fault E s (Exception name) wv Hfault) as (w1 & Hbody).
    exists (snd (experiment_handler (Exception name) w1)), (trace w1). split.
    - rewrite (run_after_gate E s w wv Hgate).
      rewrite (try_except_caught _ _ _ _ _ Hbody). reflexivity.
    - cbn. rewrite <- !app_assoc. reflexivity. }
  split; [exact Hcaught |].
  split; [| split; [| reflexivity]].
  - intros E w w0 wv name Hp Hgate Hfault.
    destruct (Hcaught E 5000%Z w0 wv name Hgate Hfault) as (w' & tr & Hrun & _).
    rewrite (main_after_prelude E w w0 w' false Hp Hrun).
    split; [reflexivity | discriminate].
  - intros E w. unfold main, bind.
    destruct (main_prelude E w) as [[[] | e] w0].
    + destruct (run_cifar100_experiment E 5000 w0) as [[[|] | e] w'] eqn:Hrun;
        cbn [exit_status fst].
      * split; [intros _ | reflexivity].
        exists w0, w'. split; [reflexivity | exact Hrun].
      * split; [discriminate |].
        intros (w0' & w'' & Hp & Hr). congruence.
      * split.
        -- destruct e; discriminate.
        -- intros (w0' & w'' & Hp & Hr). congruence.
    + cbn [exit_status fst]. split.
      * destruct e; discriminate.
      * intros (w0' & w'' & Hp & _). discriminate Hp.
Qed.

Lemma stage_errors_are_contained_witness :
  exists w' tr,
    run_cifar100_experiment (Stub.faulty_extraction_env [("svm", 60)]%string)
      5000 (Stub.with_checkpoint Partial) = (Ok false, w') /\
    trace w' = tr ++ [EvLog ERROR (MsgError (Exception "ValueError"));
                      EvLog ERROR MsgTraceback;
                      EvLog ERROR MsgPoorResults].
Proof.
  destruct stage_errors_are_contained as [Hcaught _].
  apply (Hcaught (Stub.faulty_extraction_env [("svm", 60)]%string) 5000%Z
           (Stub.with_checkpoint Partial)
           (snd (log INFO (MsgStep1 5000) (Stub.with_checkpoint Partial)))
           "ValueError"%string).
  - reflexivity.
  - apply (FaultTestFeatures _ _ _ ["svm"%string] (Stub.dataset 3) (Stub.dataset 2)
             (Stub.extract (Stub.dataset 3))); reflexivity.
Defined.

(** ** Crashes during a checkpoint write *)

Lemma checkpoint_write_runs (r : checkpoint) (w : world) :
  run_steps (checkpoint_write_steps r) w =
  (Ok tt, {| ckpt_file := Some (Saved r);
             trace := trace w ++ [EvMkdir "checkpoints/wideresnet";
                                  EvOpenW CHECKPOINT_PATH;
                                  EvWriteClose CHECKPOINT_PATH r] |}).
Proof.
  cbn. unfold bind, mkdir_parent, emit, open_for_write, write_and_close, ret. cbn.
  rewrite <- !app_assoc. reflexivity.
Qed.

Lemma crash_after_cases (r : checkpoint) (w : world) (k : nat) :
  crash_after k r w =
  match k with
  | 0%nat => w
  | 1%nat => {| ckpt_file := ckpt_file w;
                trace := trace w ++ [EvMkdir "checkpoints/wideresnet"] |}
  | 2%nat => {| ckpt_file := Some Partial;
                trace := trace w ++ [EvMkdir "checkpoints/wideresnet";
                                     EvOpenW CHECKPOINT_PATH] |}
  | _ => {| ckpt_file := Some (Saved r);
            trace := trace w ++ [EvMkdir "checkpoints/wideresnet";
                                 EvOpenW CHECKPOINT_PATH;
                                 EvWriteClose CHECKPOINT_PATH r] |}
  end.
Proof.
  unfold crash_after.
  destruct k as [| [| [| k]]].
  - reflexivity.
  - reflexivity.
  - cbn. rewrite <- !app_assoc. reflexivity.
  - replace (firstn (S (S (S k))) (checkpoint_write_steps r))
      with (checkpoint_write_steps r) by (destruct k; reflexivity).
    rewrite checkpoint_write_runs. reflexivity.
Qed.

(** C8, as the code has it.  Lines 116-117 create the parent directory
    and then save the record in place: the only file opened for writing
    is the checkpoint path itself and nothing is renamed, in the write
    and in every epoch of [train_model].  A process that dies during the
    write leaves at the path what was there before, a partial file, or
    the complete record; the partial file arises when it dies between
    the opening of the destination and the completion of the record,
    and [verify_checkpoint], which only asks whether the path exists,
    then returns [True] without training. *)
Theorem checkpoint_write_in_place :
  forall (r : checkpoint) (w : world),
    (mkdir_parent ;; torch_save r) w = run_steps (checkpoint_write_steps r) w /\
    (exists w',
       run_steps (checkpoint_write_steps r) w = (Ok tt, w') /\
       ckpt_file w' = Some (Saved r) /\
       events_since w w' = [EvMkdir "checkpoints/wideresnet";
                            EvOpenW CHECKPOINT_PATH;
                            EvWriteClose CHECKPOINT_PATH r]) /\
    (forall k,
       ckpt_file (crash_after k r w) = ckpt_file w \/
       ckpt_file (crash_after k r w) = Some Partial \/
       ckpt_file (crash_after k r w) = Some (Saved r)) /\
    ckpt_file (crash_after 2 r w) = Some Partial /\
    (forall E w1, ckpt_file w1 = Some Partial ->
       verify_checkpoint E w1 = (Ok true, w1)) /\
    (forall E st e a,
       train_pass E e = Ok tt ->
       val_pass E e = Ok a ->
       forall ev, In ev (events_since w (snd (epoch_body E st e w))) ->
         is_rename ev = false /\
         (forall p, ev = EvOpenW p -> p = CHECKPOINT_PATH)).
Proof.
  intros r w.
  split; [reflexivity |].
  split.
  { eexists. split; [apply checkpoint_write_runs |].
    split; [reflexivity | apply events_since_app; reflexivity]. }
  split.
  { intro k. rewrite crash_after_cases.
    destruct k as [| [| [| k]]]; cbn; auto. }
  split; [rewrite crash_after_cases; reflexivity |].
  split.
  { intros E w1 H. apply (verify_checkpoint_present E w1 Partial H). }
  intros E st e a Ht Hv ev Hin.
  destruct (logged_lr st (train_batches E e)) as [c |] eqn:Hc.
  - rewrite (epoch_body_ok E st e a c w Ht Hv Hc) in Hin.
    cbn [snd] in Hin. rewrite events_since_next_world in Hin.
    unfold epoch_events in Hin.
    destruct (Qgtb a (best_acc st)); cbn in Hin;
      repeat (destruct Hin as [<- | Hin];
              [split; [reflexivity | intros p Hp; inversion Hp; reflexivity] |]);
      contradiction.
  - rewrite (epoch_body_unbound E st e a w Ht Hv Hc) in Hin.
    cbn [snd] in Hin.
    rewrite (events_since_app w _
               [EvTrainPass e (Torch.lr (scheduler st)); EvValPass e])
      in Hin by reflexivity.
    cbn in Hin.
    repeat (destruct Hin as [<- | Hin];
            [split; [reflexivity | intros p Hp; inversion Hp] |]);
    contradiction.
Qed.

Lemma checkpoint_write_in_place_witness :
  verify_checkpoint (Stub.stub_env [] [])
    (crash_after 2 {| model_state_dict := 1; acc := 55; epoch := 0 |} Stub.fresh)
  = (Ok true,
     crash_after 2 {| model_state_dict := 1; acc := 55; epoch := 0 |} Stub.fresh).
Proof.
  destruct (checkpoint_write_in_place
              {| model_state_dict := 1; acc := 55; epoch := 0 |} Stub.fresh)
    as (_ & _ & _ & Hpartial & Haccept & _).
  apply Haccept. exact Hpartial.
Defined.

(** The claim of crash atomicity fails: dying after two steps of the
    first checkpoint write of a run leaves a partial file where there
    was none, and the gate accepts it. *)
Lemma checkpoint_write_not_crash_atomic :
  ckpt_file (crash_after 2 {| model_state_dict := 1; acc := 55; epoch := 0 |}
               Stub.fresh) = Some Partial /\
  fst (verify_checkpoint (Stub.stub_env [] [])
         (crash_after 2 {| model_state_dict := 1; acc := 55; epoch := 0 |}
            Stub.fresh)) = Ok true /\
  ~ crash_atomic.
Proof.
  split; [reflexivity |].
  split; [reflexivity |].
  intro H.
  destruct (H {| model_state_dict := 1; acc := 55; epoch := 0 |} Stub.fresh 2%nat)
    as [G | G]; discriminate G.
Qed.

(** * Further properties *)

(** ** Which record a run keeps *)

Lemma sel_inv_init (a : nat -> Q) (w : world) : sel_inv a w 0 initial_state w.
Proof.
  exists []. split; [symmetry; apply app_nil_r |].
  split; [reflexivity |].
  cbn. repeat split. intros j Hj. lia.
Qed.

Lemma sel_inv_step (a : nat -> Q) (w : world) (i b : nat) (c : float)
    (st : train_state) (wi : world) :
  sel_inv a w i st wi ->
  sel_inv a w (S i) (next_state st b (a i)) (next_world st i (a i) c wi).
Proof.
  intros (tr & Htr & Hmodel & Hsel).
  exists (tr ++ epoch_events st i (a i) c).
  split; [simpl; rewrite Htr, app_assoc; reflexivity |].
  split; [simpl; rewrite Hmodel; reflexivity |].
  assert (Hnonneg : 0 <= best_acc st /\ forall j, (j < i)%nat -> a j <= best_acc st).
  { destruct (last_written tr) as [r |].
    - destruct Hsel as (-> & _ & _ & _ & _ & Hpos & _ & Hle).
      split; [apply Qlt_le_weak; exact Hpos | exact Hle].
    - destruct Hsel as (-> & _ & Hle). split; [apply Qle_refl | exact Hle]. }
  destruct Hnonneg as [Hnonneg Hbound].
  unfold last_written in *.
  rewrite written_app, written_epoch_events, map_app.
  unfold next_state, next_world, epoch_checkpoint. cbn [best_acc ckpt_file].
  destruct (Qgtb (a i) (best_acc st)) eqn:Hgt.
  - cbn [map]. rewrite last_last. cbn [acc epoch model_state_dict].
    apply Qltb_lt in Hgt.
    split; [reflexivity |]. split; [reflexivity |].
    unfold selected. cbn [acc epoch model_state_dict].
    split; [lia |]. split; [reflexivity |].
    split; [rewrite Hmodel; reflexivity |].
    split; [eapply Qle_lt_trans; [exact Hnonneg | exact Hgt] |].
    split.
    + intros j Hj. eapply Qle_lt_trans; [apply Hbound; exact Hj | exact Hgt].
    + intros j Hj. destruct (Nat.eq_dec j i) as [-> | Hne].
      * apply Qle_refl.
      * apply Qlt_le_weak. eapply Qle_lt_trans; [apply Hbound; lia | exact Hgt].
  - cbn [map]. rewrite app_nil_r.
    unfold Qgtb in Hgt. apply Qltb_ge in Hgt.
    destruct (last (map Some (written tr)) None) as [r |].
    + destruct Hsel as (Hbest & Hfile & Hlt & Hacc & Hms & Hpos & Hearly & Hle).
      split; [exact Hbest |]. split; [exact Hfile |].
      unfold selected. split; [lia |]. split; [exact Hacc |].
      split; [exact Hms |]. split; [exact Hpos |]. split; [exact Hearly |].
      intros j Hj. destruct (Nat.eq_dec j i) as [-> | Hne].
      * rewrite <- Hbest. exact Hgt.
      * apply Hle. lia.
    + destruct Hsel as (Hbest & Hfile & Hle).
      split; [exact Hbest |]. split; [exact Hfile |].
      intros j Hj. destruct (Nat.eq_dec j i) as [-> | Hne].
      * rewrite <- Hbest. exact Hgt.
      * apply Hle. lia.
Qed.

Lemma sel_inv_cases (a : nat -> Q) (w : world) (i : nat) (st : train_state) (wi : world) :
  sel_inv a w i st wi ->
  (best_acc st = 0 /\ ckpt_file wi = ckpt_file w /\
   forall j, (j < i)%nat -> a j <= 0) \/
  (exists r, best_acc st = acc r /\ ckpt_file wi = Some (Saved r) /\ selected a i r).
Proof.
  intros (tr & _ & _ & Hsel).
  destruct (last_written tr) as [r |].
  - right. exists r. exact Hsel.
  - left. exact Hsel.
Qed.

(** What a run of [train_model] whose passes return normally leaves
    behind. *)
Lemma train_model_selects (E : env) (a : nat -> Q) (n : nat) (w : world) :
  (forall i, (i < n)%nat -> train_pass E i = Ok tt /\ val_pass E i = Ok (a i)) ->
  ((0 < n)%nat -> (0 < train_batches E 0)%nat) ->
  exists st w',
    train_model E n w = (Ok (Qgtb (best_acc st) 50), w') /\
    ((best_acc st = 0 /\ ckpt_file w' = ckpt_file w /\
      forall j, (j < n)%nat -> a j <= 0) \/
     (exists r, best_acc st = acc r /\ ckpt_file w' = Some (Saved r) /\
                selected a n r)).
Proof.
  intros Hok Hb.
  destruct (epoch_loop_invariant E a n (snd (log INFO MsgTrainingFromScratch w))
              (sel_inv a (snd (log INFO MsgTrainingFromScratch w))) Hok Hb)
    as (st & w1 & Hloop & Hinv & _).
  - apply sel_inv_init.
  - intros i st wi c _. apply sel_inv_step.
  - exists st, (snd (log INFO (MsgBestAccuracy (best_acc st)) w1)).
    split; [apply train_model_unfold; exact Hloop |].
    apply sel_inv_cases in Hinv. exact Hinv.
Qed.

(** The same, read off a run that has returned. *)
Lemma train_model_outcome (E : env) (n : nat) (w w' : world) (ok : bool) :
  train_model E n w = (Ok ok, w') ->
  (forall i, (i < n)%nat ->
     train_pass E i = Ok tt /\ val_pass E i = Ok (val_acc E i)) /\
  exists st,
    ok = Qgtb (best_acc st) 50 /\
    ((best_acc st = 0 /\ ckpt_file w' = ckpt_file w /\
      forall j, (j < n)%nat -> val_acc E j <= 0) \/
     (exists r, best_acc st = acc r /\ ckpt_file w' = Some (Saved r) /\
                selected (val_acc E) n r)).
Proof.
  intro Hrun.
  destruct (train_model_completed E n w w' ok Hrun) as [Hok Hb].
  split; [exact Hok |].
  destruct (train_model_selects E (val_acc E) n w Hok Hb)
    as (st & w2 & Hrun2 & Hcases).
  rewrite Hrun in Hrun2. inversion Hrun2 as [[Hverdict Hw]].
  exists st. split; [reflexivity | exact Hcases].
Qed.

(** X1.  In a run of [train_model] that returned, with validation
    accuracies [a 0 .. a (n-1)], whatever was at the checkpoint path
    before: when no accuracy is positive the path is left as it was;
    otherwise it holds a record of this run that names the earliest
    epoch attaining the maximum accuracy, carries that accuracy and the
    parameters after that epoch's training pass. *)
Theorem stored_record_is_earliest_maximum :
  forall (E : env) (a : nat -> Q) (n : nat) (w w' : world) (ok : bool),
    train_model E n w = (Ok ok, w') ->
    (forall i, (i < n)%nat -> val_pass E i = Ok (a i)) ->
    ((forall j, (j < n)%nat -> a j <= 0) /\ ckpt_file w' = ckpt_file w) \/
    (exists r,
       ckpt_file w' = Some (Saved r) /\
       (epoch r < n)%nat /\
       acc r = a (epoch r) /\
       model_state_dict r = S (epoch r) /\
       0 < acc r /\
       (forall j, (j < epoch r)%nat -> a j < acc r) /\
       (forall j, (j < n)%nat -> a j <= acc r)).
Proof.
  intros E a n w w' ok Hrun Ha.
  destruct (train_model_completed E n w w' ok Hrun) as [Hok Hb].
  assert (Hok' : forall i, (i < n)%nat ->
            train_pass E i = Ok tt /\ val_pass E i = Ok (a i)).
  { intros i Hi. split; [apply (Hok i Hi) | apply Ha; exact Hi]. }
  destruct (train_model_selects E a n w Hok' Hb) as (st & w2 & Hrun2 & Hcases).
  rewrite Hrun in Hrun2. inversion Hrun2 as [[Hverdict Hw]].
  destruct Hcases as [(_ & Hfile & Hle) | (r & _ & Hfile & Hsel)].
  - left. split; assumption.
  - right. exists r. split; [exact Hfile | exact Hsel].
Qed.

Lemma stored_record_is_earliest_maximum_witness :
  exists ok w',
    train_model (Stub.stub_env [40; 55; 55] []) 3
      (Stub.with_checkpoint (Saved {| model_state_dict := 7; acc := 90; epoch := 9 |}))
    = (Ok ok, w') /\
    ckpt_file w' = Some (Saved {| model_state_dict := 2; acc := 55; epoch := 1 |}).
Proof.
  remember (train_model (Stub.stub_env [40; 55; 55] []) 3
              (Stub.with_checkpoint
                 (Saved {| model_state_dict := 7; acc := 90; epoch := 9 |})))
    as out eqn:Hout.
  assert (Hfst : exists ok, fst out = Ok ok).
  { rewrite Hout. vm_compute. eexists. reflexivity. }
  destruct out as [res w']. destruct Hfst as [ok Hres]. cbn [fst] in Hres. subst res.
  destruct (stored_record_is_earliest_maximum (Stub.stub_env [40; 55; 55] [])
              (fun i => nth i [40; 55; 55] 0) 3%nat _ w' ok (eq_sym Hout))
    as [[Hle _] | (r & Hfile & Hlt & Hacc & Hms & _ & Hearly & Hmax)].
  - intros i Hi. destruct i as [| [| [| i]]]; [| | | lia]; reflexivity.
  - exfalso. specialize (Hle 0%nat). cbn in Hle.
    assert (H40 : 40 <= 0) by (apply Hle; lia).
    apply Qle_bool_iff in H40. vm_compute in H40. discriminate H40.
  - exists ok, w'. split; [reflexivity |].
    rewrite Hfile. do 2 f_equal.
    destruct r as [ms ra re]. cbn [epoch acc model_state_dict] in *.
    destruct re as [| [| [| re]]]; [| | | lia].
    + exfalso. specialize (Hmax 1%nat). rewrite Hacc in Hmax. cbn in Hmax.
      assert (H : 55 <= 40) by (apply Hmax; lia).
      apply Qle_bool_iff in H. vm_compute in H. discriminate H.
    + rewrite Hms, Hacc. reflexivity.
    + exfalso. specialize (Hearly 1%nat). rewrite Hacc in Hearly. cbn in Hearly.
      assert (H : 55 < 55) by (apply Hearly; lia).
      exact (Qlt_irrefl _ H).
Defined.

(** ** What the gate guarantees *)

(** When the gate answers [True], either something was at the path and
    nothing happened, or the path was empty and [train_model] answered
    [True]. *)
Lemma verify_checkpoint_true_inv (E : env) (w w' : world) :
  verify_checkpoint E w = (Ok true, w') ->
  (exists f, ckpt_file w = Some f /\ w' = w) \/
  (ckpt_file w = None /\
   exists w1, ckpt_file w1 = None /\ train_model E 200 w1 = (Ok true, w')).
Proof.
  unfold verify_checkpoint. unfold bind at 1. unfold path_exists.
  destruct (ckpt_file w) as [f |] eqn:Hf; cbn [negb].
  - intro H. inversion H. left. exists f. split; reflexivity.
  - intro H. right. split; [reflexivity |].
    apply bind_inv in H. destruct H as ([] & w1 & Hlog & H).
    apply bind_inv in H. destruct H as (ds1 & w1a & Hd1 & H).
    apply lift_inv in Hd1. destruct Hd1 as [_ ->].
    apply bind_inv in H. destruct H as (ds2 & w1b & Hd2 & H).
    apply lift_inv in Hd2. destruct Hd2 as [_ ->].
    apply bind_inv in H. destruct H as ([] & w1c & Hm & H).
    apply lift_inv in Hm. destruct Hm as [_ ->].
    apply bind_inv in H. destruct H as (trained & w2 & Htrain & H).
    destruct trained; cbn in H; inversion H.
    exists w1. inversion Hlog. subst. split; [exact Hf | exact Htrain].
Qed.

(** X2.  Whenever [verify_checkpoint] returns [True], something sits at
    the checkpoint path afterwards.  If the path was occupied, nothing
    at all happened; if it was empty, it now holds a complete record
    written by the training run just made, whose accuracy exceeds [50]
    and is the accuracy the validation pass of the epoch it names
    returned. *)
Theorem verify_checkpoint_true_leaves_file :
  forall (E : env) (w w' : world),
    verify_checkpoint E w = (Ok true, w') ->
    ckpt_file w' <> None /\
    (ckpt_file w <> None -> w' = w) /\
    (ckpt_file w = None ->
     exists r,
       ckpt_file w' = Some (Saved r) /\
       50 < acc r /\
       (epoch r < 200)%nat /\
       val_pass E (epoch r) = Ok (acc r)).
Proof.
  intros E w w' H.
  destruct (verify_checkpoint_true_inv E w w' H)
    as [(f & Hf & ->) | (Hnone & w1 & Hw1 & Htrain)].
  - split; [rewrite Hf; discriminate |].
    split; [reflexivity |]. intro Hc. rewrite Hf in Hc. discriminate Hc.
  - destruct (train_model_outcome E 200 w1 w' true Htrain)
      as (Hok & st & Hverdict & [(Hbest & _) | (r & Hbest & Hfile & Hsel)]).
    + rewrite Hbest in Hverdict. discriminate Hverdict.
    + split; [rewrite Hfile; discriminate |].
      split; [intro Hc; contradiction |].
      intros _. exists r. destruct Hsel as (Hlt & Hacc & _).
      split; [exact Hfile |].
      split; [rewrite <- Hbest; apply Qltb_lt; symmetry; exact Hverdict |].
      split; [exact Hlt |].
      rewrite Hacc. apply Hok. exact Hlt.
Qed.

Lemma verify_checkpoint_true_leaves_file_witness :
  exists w' r,
    verify_checkpoint (Stub.stub_env (repeat 60 200) []) Stub.fresh = (Ok true, w') /\
    ckpt_file w' = Some (Saved r) /\ 50 < acc r.
Proof.
  remember (verify_checkpoint (Stub.stub_env (repeat 60 200) []) Stub.fresh)
    as out eqn:Hout.
  assert (Hfst : fst out = Ok true) by (rewrite Hout; vm_compute; reflexivity).
  destruct out as [res w']. cbn in Hfst. subst res.
  destruct (verify_checkpoint_true_leaves_file
              (Stub.stub_env (repeat 60 200) []) Stub.fresh w' (eq_sym Hout))
    as (_ & _ & Hrec).
  destruct (Hrec eq_refl) as (r & Hfile & Hacc & _).
  exists w', r. split; [reflexivity | split; assumption].
Defined.

Lemma verify_checkpoint_false_file (E : env) (w w' : world) :
  verify_checkpoint E w = (Ok false, w') ->
  exists w1 w2,
    ckpt_file w1 = None /\
    train_model E 200 w1 = (Ok false, w2) /\
    ckpt_file w' = ckpt_file w2.
Proof.
  unfold verify_checkpoint. unfold bind at 1. unfold path_exists.
  destruct (ckpt_file w) as [f |] eqn:Hf; cbn [negb].
  - intro H. inversion H.
  - intro H.
    apply bind_inv in H. destruct H as ([] & w1 & Hlog & H).
    apply bind_inv in H. destruct H as (ds1 & w1a & Hd1 & H).
    apply lift_inv in Hd1. destruct Hd1 as [_ ->].
    apply bind_inv in H. destruct H as (ds2 & w1b & Hd2 & H).
    apply lift_inv in Hd2. destruct Hd2 as [_ ->].
    apply bind_inv in H. destruct H as ([] & w1c & Hm & H).
    apply lift_inv in Hm. destruct Hm as [_ ->].
    apply bind_inv in H. destruct H as (trained & w2 & Htrain & H).
    destruct trained; cbn in H; inversion H.
    exists w1, w2. inversion Hlog. subst.
    split; [exact Hf | split; [exact Htrain | reflexivity]].
Qed.

(** X3.  A training run that misses the floor still leaves its best
    record behind when any accuracy was positive: after
    [verify_checkpoint] has returned [False] the path then holds a
    record with accuracy at most [50], and the next call of
    [verify_checkpoint] returns [True] without training.  When no
    accuracy was positive the path is still empty. *)
Theorem rerun_after_failed_training :
  forall (E : env) (w w' : world),
    verify_checkpoint E w = (Ok false, w') ->
    ((exists i x, (i < 200)%nat /\ val_pass E i = Ok x /\ 0 < x) ->
     (exists r, ckpt_file w' = Some (Saved r) /\ acc r <= 50) /\
     verify_checkpoint E w' = (Ok true, w')) /\
    ((forall i x, (i < 200)%nat -> val_pass E i = Ok x -> x <= 0) ->
     ckpt_file w' = None).
Proof.
  intros E w w' H.
  destruct (verify_checkpoint_false_file E w w' H)
    as (w1 & w2 & Hfile1 & Htrain & Hfile').
  destruct (train_model_outcome E 200 w1 w2 false Htrain)
    as (Hok & st & Hverdict & Hcases).
  assert (Hbest : best_acc st <= 50).
  { apply Qltb_ge. symmetry. exact Hverdict. }
  destruct Hcases as [(_ & Hfile2 & Hle) | (r & Hacc & Hfile2 & Hsel)].
  - split.
    + intros (i & x & Hi & Hx & Hpos). exfalso.
      destruct (Hok i Hi) as [_ Hv]. rewrite Hx in Hv. inversion Hv as [Heq].
      pose proof (Hle i Hi) as Hc. rewrite <- Heq in Hc.
      exact (Qle_not_lt _ _ Hc Hpos).
    + intros _. rewrite Hfile', Hfile2. exact Hfile1.
  - split.
    + intros _. split.
      * exists r. split; [rewrite Hfile'; exact Hfile2 |].
        rewrite <- Hacc. exact Hbest.
      * apply (verify_checkpoint_present E w' (Saved r)).
        rewrite Hfile'. exact Hfile2.
    + intro Hall. exfalso.
      destruct Hsel as (Hlt & Hr & _ & Hpos & _).
      destruct (Hok (epoch r) Hlt) as [_ Hv].
      pose proof (Hall (epoch r) (val_acc E (epoch r)) Hlt Hv) as Hc.
      rewrite <- Hr in Hc. exact (Qle_not_lt _ _ Hc Hpos).
Qed.

Lemma rerun_after_failed_training_witness :
  exists w',
    verify_checkpoint (Stub.stub_env (repeat 40 200) []) Stub.fresh = (Ok false, w') /\
    verify_checkpoint (Stub.stub_env (repeat 40 200) []) w' = (Ok true, w').
Proof.
  remember (verify_checkpoint (Stub.stub_env (repeat 40 200) []) Stub.fresh)
    as out eqn:Hout.
  assert (Hfst : fst out = Ok false) by (rewrite Hout; vm_compute; reflexivity).
  destruct out as [res w']. cbn in Hfst. subst res.
  destruct (rerun_after_failed_training
              (Stub.stub_env (repeat 40 200) []) Stub.fresh w' (eq_sym Hout))
    as [Hpos _].
  destruct Hpos as [_ Hagain].
  - exists 0%nat, 40. split; [lia | split; reflexivity].
  - exists w'. split; [reflexivity | exact Hagain].
Defined.

(** ** Errors of the training stage *)

Lemma epoch_body_fault (E : env) (st : train_state) (k : nat) (e : exn) (w : world) :
  pass_fault E k e ->
  exists evs,
    epoch_body E st k w =
      (Raise e, {| ckpt_file := ckpt_file w; trace := trace w ++ evs |}) /\
    train_passes evs = [k] /\ written evs = [].
Proof.
  intros [Ht | [Ht Hv]].
  - exists [EvTrainPass k (Torch.lr (scheduler st))]. split; [| split; reflexivity].
    unfold epoch_body, bind, emit, lift. cbn. rewrite Ht. reflexivity.
  - exists [EvTrainPass k (Torch.lr (scheduler st)); EvValPass k].
    split; [| split; reflexivity].
    unfold epoch_body, bind, emit, lift. cbn. rewrite Ht, Hv. cbn.
    rewrite <- app_assoc. reflexivity.
Qed.

Lemma epoch_loop_fault (E : env) (n k : nat) (e : exn)
    (w wk wf : world) (st : train_state) :
  (k < n)%nat ->
  epoch_loop E k w = (Ok st, wk) ->
  epoch_body E st k wk = (Raise e, wf) ->
  epoch_loop E n w = (Raise e, wf).
Proof.
  intros Hk Hloop Hbody. unfold epoch_loop in *.
  replace n with (k + S (n - S k))%nat by lia.
  rewrite seq_app, foldM_app. erewrite bind_ok; [| exact Hloop].
  cbn [seq foldM Nat.add]. erewrite bind_raise; [reflexivity | exact Hbody].
Qed.

(** X4.  When the passes of epochs [0 .. k-1] return normally, the
    training stream of the first epoch is not empty if there is one, and
    the training or the validation pass of epoch [k] raises,
    [train_model] raises the same exception.  No later epoch is started, and the
    checkpoint path is as the first [k] epochs left it: untouched when
    none of their accuracies was positive, and otherwise holding the
    record of the earliest best epoch among them. *)
Theorem train_model_propagates_pass_errors :
  forall (E : env) (a : nat -> Q) (n k : nat) (e : exn) (w : world),
    (k < n)%nat ->
    (forall i, (i < k)%nat ->
       train_pass E i = Ok tt /\ val_pass E i = Ok (a i)) ->
    ((0 < k)%nat -> (0 < train_batches E 0)%nat) ->
    pass_fault E k e ->
    exists w',
      train_model E n w = (Raise e, w') /\
      train_passes (events_since w w') = seq 0 (S k) /\
      (((forall j, (j < k)%nat -> a j <= 0) /\ ckpt_file w' = ckpt_file w) \/
       (exists r, ckpt_file w' = Some (Saved r) /\ selected a k r)).
Proof.
  intros E a n k e w Hk Hok Hb Hfault.
  destruct (epoch_loop_invariant E a k (snd (log INFO MsgTrainingFromScratch w))
              (fun i st wi =>
                 run_inv a (snd (log INFO MsgTrainingFromScratch w)) i st wi /\
                 sel_inv a (snd (log INFO MsgTrainingFromScratch w)) i st wi) Hok Hb)
    as (st & wk & Hloop & (Hrun & Hsel) & _).
  - split; [apply run_inv_init | apply sel_inv_init].
  - intros i st wi c _ [H1 H2]. split; [apply run_inv_step | apply sel_inv_step]; assumption.
  - destruct (epoch_body_fault E st k e wk Hfault) as (evs & Hbody & Hpasses & Hwritten).
    exists {| ckpt_file := ckpt_file wk; trace := trace wk ++ evs |}.
    split.
    { unfold train_model. erewrite bind_ok; [| reflexivity].
      erewrite bind_raise; [reflexivity |].
      eapply epoch_loop_fault; [exact Hk | exact Hloop | exact Hbody]. }
    destruct Hrun as (tr & Htr & _ & _ & Htp & _).
    split.
    { rewrite (events_since_app w _
                 ([EvLog INFO MsgTrainingFromScratch] ++ tr ++ evs)).
      - rewrite !train_passes_app, Htp, Hpasses, seq_S. reflexivity.
      - cbn [trace]. rewrite Htr. cbn. rewrite <- !app_assoc. reflexivity. }
    cbn [ckpt_file].
    destruct (sel_inv_cases _ _ _ _ _ Hsel) as [(_ & Hfile & Hle) | (r & _ & Hfile & Hr)].
    + left. split; [exact Hle | exact Hfile].
    + right. exists r. split; [exact Hfile | exact Hr].
Qed.

Lemma train_model_propagates_pass_errors_witness :
  exists w',
    train_model (Stub.stub_env [40; 55] []) 5 Stub.fresh
    = (Raise (Exception "ZeroDivisionError"), w') /\
    train_passes (events_since Stub.fresh w') = [0; 1; 2]%nat.
Proof.
  destruct (train_model_propagates_pass_errors (Stub.stub_env [40; 55] [])
              (fun i => nth i [40; 55] 0) 5 2
              (Exception "ZeroDivisionError") Stub.fresh)
    as (w' & Hrun & Hpasses & _).
  - lia.
  - intros i Hi. destruct i as [| [| i]]; [| | lia]; split; reflexivity.
  - intros _. cbn. lia.
  - right. split; reflexivity.
  - exists w'. split; [exact Hrun | exact Hpasses].
Defined.

(** ** What escapes the orchestrator *)

Lemma try_except_never_raises_Exception (body : M bool) (w w' : world) (name : string) :
  try_except body experiment_handler w <> (Raise (Exception name), w').
Proof.
  unfold try_except. destruct (body w) as [[b | [n |]] w1]; cbn; discriminate.
Qed.

(** X5.  An exception of class [Exception] leaves
    [run_cifar100_experiment] exactly when the checkpoint gate raised
    it: the call of [verify_checkpoint] stands outside the [try]
    statement, so what the dataset or model construction or a training
    or validation pass raises is not caught, and [main] ends with that
    exception uncaught. *)
Theorem exception_escapes_iff_gate_raised :
  (forall (E : env) (s : Z) (w w' : world) (name : string),
     run_cifar100_experiment E s w = (Raise (Exception name), w') <->
     verify_checkpoint E (snd (log INFO (MsgStep1 s) w))
     = (Raise (Exception name), w')) /\
  (forall (E : env) (w w0 w' : world) (e : exn),
     main_prelude E w = (Ok tt, w0) ->
     verify_checkpoint E (snd (log INFO (MsgStep1 5000) w0)) = (Raise e, w') ->
     main E w = (Uncaught e, w') /\ exit_status (fst (main E w)) <> 0%Z).
Proof.
  split.
  - intros E s w w' name. unfold run_cifar100_experiment.
    unfold bind at 1. cbn [log emit].
    change {| ckpt_file := ckpt_file w;
              trace := trace w ++ [EvLog INFO (MsgStep1 s)] |}
      with (snd (log INFO (MsgStep1 s) w)).
    unfold bind.
    destruct (verify_checkpoint E (snd (log INFO (MsgStep1 s) w)))
      as [[[|] | e] wv]; cbn [negb].
    + split; [| discriminate].
      intro H. exfalso. exact (try_except_never_raises_Exception _ _ _ _ H).
    + split; discriminate.
    + split; intro H; exact H.
  - intros E w w0 w' e Hp Hgate.
    assert (Hmain : main E w = (Uncaught e, w')).
    { unfold main. erewrite bind_ok; [| exact Hp].
      unfold run_cifar100_experiment.
      erewrite bind_ok; [| reflexivity].
      erewrite bind_raise; [reflexivity | exact Hgate]. }
    split; [exact Hmain |]. rewrite Hmain. destruct e; discriminate.
Qed.

Lemma exception_escapes_iff_gate_raised_witness :
  exists w',
    main (Stub.stub_env [] []) Stub.fresh
    = (Uncaught (Exception "ZeroDivisionError"), w').
Proof.
  destruct exception_escapes_iff_gate_raised as [_ Hmain].
  eexists.
  apply (Hmain (Stub.stub_env [] []) Stub.fresh
           (snd (main_prelude (Stub.stub_env [] []) Stub.fresh))).
  - reflexivity.
  - reflexivity.
Defined.

(** X6.  When [verify_checkpoint] returns [False],
    [run_cifar100_experiment] returns [False] in the very world the
    gate left, whose last event is the error record of the failed
    training: nothing of lines 189-254 runs, and [main] exits through
    [sys.exit(1)]. *)
Theorem failed_gate_short_circuits :
  forall (E : env) (s : Z) (w wv : world),
    verify_checkpoint E (snd (log INFO (MsgStep1 s) w)) = (Ok false, wv) ->
    run_cifar100_experiment E s w = (Ok false, wv) /\
    (exists tr, trace wv = tr ++ [EvLog ERROR MsgTrainFailed]) /\
    (forall w00, s = 5000%Z -> main_prelude E w00 = (Ok tt, w) ->
       main E w00 = (SysExit 1, wv)).
Proof.
  intros E s w wv H.
  assert (Hrun : run_cifar100_experiment E s w = (Ok false, wv)).
  { unfold run_cifar100_experiment.
    erewrite bind_ok; [| reflexivity].
    erewrite bind_ok; [| exact H]. reflexivity. }
  split; [exact Hrun |].
  split.
  - apply verify_checkpoint_false_inv in H.
    destruct H as (_ & w1 & w2 & _ & _ & Htr).
    exists (trace w2). exact Htr.
  - intros w00 -> Hp. unfold main.
    erewrite bind_ok; [| exact Hp]. rewrite Hrun. reflexivity.
Qed.

Lemma failed_gate_short_circuits_witness :
  exists wv,
    run_cifar100_experiment (Stub.stub_env (repeat 40 200) [("svm", 60)]%string)
      5000 Stub.fresh = (Ok false, wv) /\
    exists tr, trace wv = tr ++ [EvLog ERROR MsgTrainFailed].
Proof.
  remember (verify_checkpoint (Stub.stub_env (repeat 40 200) [("svm", 60)]%string)
              (snd (log INFO (MsgStep1 5000) Stub.fresh))) as out eqn:Hout.
  assert (Hfst : fst out = Ok false) by (rewrite Hout; vm_compute; reflexivity).
  destruct out as [res wv]. cbn in Hfst. subst res.
  destruct (failed_gate_short_circuits
              (Stub.stub_env (repeat 40 200) [("svm", 60)]%string) 5000
              Stub.fresh wv (eq_sym Hout)) as (Hrun & Htr & _).
  exists wv. split; [exact Hrun | exact Htr].
Defined.

(** ** The results dictionary and the log of the second stage *)

Lemma dict_set_absent {V : Type} (k : string) (v : V) (d : dict V) :
  ~ In k (map fst d) -> dict_set k v d = d ++ [(k, v)].
Proof.
  induction d as [| [k' v'] d IH]; intro H; simpl.
  - reflexivity.
  - destruct (String.eqb_spec k k') as [-> | Hne].
    + exfalso. apply H. left. reflexivity.
    + rewrite IH; [reflexivity |]. intro Hc. apply H. right. exact Hc.
Qed.

Lemma dict_set_present_keys {V : Type} (k : string) (v : V) (d : dict V) :
  In k (map fst d) -> map fst (dict_set k v d) = map fst d.
Proof.
  induction d as [| [k' v'] d IH]; intro H; simpl.
  - destruct H.
  - destruct (String.eqb_spec k k') as [-> | Hne].
    + reflexivity.
    + simpl. rewrite IH; [reflexivity |].
      destruct H as [H | H]; [exfalso; apply Hne; symmetry; exact H | exact H].
Qed.

Lemma dict_set_keys_NoDup {V : Type} (k : string) (v : V) (d : dict V) :
  NoDup (map fst d) -> NoDup (map fst (dict_set k v d)).
Proof.
  intro H. destruct (in_dec string_dec k (map fst d)) as [Hin | Hnin].
  - rewrite dict_set_present_keys; assumption.
  - rewrite dict_set_absent, map_app by assumption. simpl.
    apply NoDup_app; [exact H | constructor; [intros [] | constructor] |].
    intros x Hx [<- | []]. exact (Hnin Hx).
Qed.

Lemma dict_set_keys_In {V : Type} (k k' : string) (v : V) (d : dict V) :
  In k' (map fst (dict_set k v d)) <-> k' = k \/ In k' (map fst d).
Proof.
  destruct (in_dec string_dec k (map fst d)) as [Hin | Hnin].
  - rewrite dict_set_present_keys by assumption. split.
    + intro H. right. exact H.
    + intros [-> | H]; assumption.
  - rewrite dict_set_absent, map_app, in_app_iff by assumption. simpl. split.
    + intros [H | [<- | []]]; [right; exact H | left; reflexivity].
    + intros [-> | H]; [right; left; reflexivity | left; exact H].
Qed.

Lemma collect_results_keys_NoDup (te : string -> Q * Q * Q) (clfs : list string)
    (d : dict metrics) :
  NoDup (map fst d) -> NoDup (map fst (collect_results te clfs d)).
Proof.
  revert d. induction clfs as [| c clfs IH]; intros d H; simpl.
  - exact H.
  - apply IH. apply dict_set_keys_NoDup. exact H.
Qed.

Lemma collect_results_keys_In (te : string -> Q * Q * Q) (clfs : list string)
    (d : dict metrics) (k : string) :
  In k (map fst (collect_results te clfs d)) <-> In k (map fst d) \/ In k clfs.
Proof.
  revert d. induction clfs as [| c clfs IH]; intro d; simpl.
  - split; [intro H; left; exact H | intros [H | []]; exact H].
  - rewrite IH, dict_set_keys_In. split.
    + intros [[-> | H] | H]; [right; left; reflexivity | left; exact H | right; right; exact H].
    + intros [H | [<- | H]]; [left; right; exact H | left; left; reflexivity | right; exact H].
Qed.

Lemma collect_results_distinct (te : string -> Q * Q * Q) (clfs : list string)
    (d : dict metrics) :
  NoDup clfs ->
  (forall c, In c clfs -> ~ In c (map fst d)) ->
  collect_results te clfs d = d ++ map (fun c => (c, make_metrics (te c))) clfs.
Proof.
  revert d. induction clfs as [| c clfs IH]; intros d Hnd Hfresh; simpl.
  - symmetry. apply app_nil_r.
  - inversion Hnd as [| c' clfs' Hnotin Hnd']; subst.
    rewrite dict_set_absent by (apply Hfresh; left; reflexivity).
    rewrite IH.
    + rewrite <- app_assoc. reflexivity.
    + exact Hnd'.
    + intros c' Hc' Hin. rewrite map_app, in_app_iff in Hin. simpl in Hin.
      destruct Hin as [Hin | [<- | []]].
      * exact (Hfresh c' (or_intror Hc') Hin).
      * exact (Hnotin Hc').
Qed.

Lemma evaluate_fold_run (E : env) (train_f test_f : extracted)
    (te : string -> Q * Q * Q) (clfs : list string) (d : dict metrics) (w : world) :
  (forall c, In c clfs -> train_and_evaluate E c train_f test_f = Ok (te c)) ->
  foldM (fun results clf_name =>
           log INFO (MsgTraining clf_name) ;;
           r <- lift (train_and_evaluate E clf_name train_f test_f) ;;
           ret (dict_set clf_name (make_metrics r) results))
        clfs d w
  = (Ok (collect_results te clfs d),
     {| ckpt_file := ckpt_file w;
        trace := trace w ++ map (fun c => EvLog INFO (MsgTraining c)) clfs |}).
Proof.
  revert d w. induction clfs as [| c clfs IH]; intros d w Hok.
  - destruct w. cbn. rewrite app_nil_r. reflexivity.
  - cbn [foldM].
    rewrite (bind_ok _ _ w
               {| ckpt_file := ckpt_file w;
                  trace := trace w ++ [EvLog INFO (MsgTraining c)] |}
               (dict_set c (make_metrics (te c)) d)).
    + rewrite IH by (intros c' Hc'; apply Hok; right; exact Hc').
      cbn. rewrite <- app_assoc. reflexivity.
    + unfold bind at 1. cbn. unfold bind, lift, ret.
      rewrite (Hok c (or_introl eq_refl)). reflexivity.
Qed.

Lemma log_results_run (results : dict metrics) (w : world) :
  log_results results w
  = (Ok tt,
     {| ckpt_file := ckpt_file w;
        trace := trace w ++ [EvLog INFO MsgResultsHeader]
                 ++ map (fun kv => EvLog INFO (MsgResult (fst kv) (snd kv))) results |}).
Proof.
  assert (G : forall (d : dict metrics) (w1 : world),
            foldM (fun _ kv => log INFO (MsgResult (fst kv) (snd kv))) d tt w1
            = (Ok tt,
               {| ckpt_file := ckpt_file w1;
                  trace := trace w1
                           ++ map (fun kv => EvLog INFO (MsgResult (fst kv) (snd kv))) d |})).
  { induction d as [| kv d IH]; intro w1.
    - destruct w1. cbn. rewrite app_nil_r. reflexivity.
    - cbn [foldM].
      rewrite (bind_ok _ _ w1
                 {| ckpt_file := ckpt_file w1;
                    trace := trace w1
                             ++ [EvLog INFO (MsgResult (fst kv) (snd kv))] |} tt)
        by reflexivity.
      rewrite IH. cbn. rewrite <- app_assoc. reflexivity. }
  unfold log_results. erewrite bind_ok; [| reflexivity].
  rewrite G. cbn. rewrite <- app_assoc. reflexivity.
Qed.

(** X7.  When no collaborator raises, lines 190-246 leave the
    checkpoint path alone and log one line per classifier fitted, the
    header, one line per entry of the results and, when every accuracy
    is below [10], the error line.  The results hold each configured
    name exactly once; when the configured names are distinct, the
    results list them in the configured order, each with the metrics
    of its fit. *)
Theorem results_in_configured_order :
  forall (E : env) (s : Z) (w : world)
         (clfs : list string) (train test : list sample)
         (train_f test_f : extracted) (te : string -> Q * Q * Q),
    new_experiment E s = Ok clfs ->
    get_dataset E true false = Ok train ->
    get_dataset E false false = Ok test ->
    extract_features E (fst (dataset_views s train test)) = Ok train_f ->
    extract_features E (snd (dataset_views s train test)) = Ok test_f ->
    (forall c, In c clfs -> train_and_evaluate E c train_f test_f = Ok (te c)) ->
    exists results,
      evaluate_classifiers E clfs train_f test_f w
      = (Ok results,
         {| ckpt_file := ckpt_file w;
            trace := trace w ++ map (fun c => EvLog INFO (MsgTraining c)) clfs |}) /\
      experiment_body E s w
      = (Ok (negb (all_below_floor results)),
         {| ckpt_file := ckpt_file w;
            trace := trace w ++ stage_log clfs results |}) /\
      NoDup (map fst results) /\
      (forall k, In k (map fst results) <-> In k clfs) /\
      (NoDup clfs ->
       results = map (fun c => (c, make_metrics (te c))) clfs).
Proof.
  intros E s w clfs train test train_f test_f te He Htr Hte Hftr Hfte Hclf.
  exists (collect_results te clfs []).
  assert (Heval : forall w0,
            evaluate_classifiers E clfs train_f test_f w0
            = (Ok (collect_results te clfs []),
               {| ckpt_file := ckpt_file w0;
                  trace := trace w0 ++ map (fun c => EvLog INFO (MsgTraining c)) clfs |})).
  { intro w0. unfold evaluate_classifiers. apply evaluate_fold_run. exact Hclf. }
  split; [apply Heval |].
  split.
  { unfold experiment_body.
    step_lift He. step_lift Htr. step_lift Hte. cbv zeta.
    step_lift Hftr. step_lift Hfte.
    erewrite bind_ok; [| apply Heval].
    erewrite bind_ok; [| apply log_results_run].
    unfold stage_log.
    destruct (all_below_floor (collect_results te clfs [])); cbn;
      rewrite <- ?app_assoc; cbn; rewrite <- ?app_assoc; try rewrite app_nil_r;
      reflexivity. }
  split; [apply collect_results_keys_NoDup; constructor |].
  split.
  { intro k. rewrite collect_results_keys_In. simpl. tauto. }
  intro Hnd. rewrite collect_results_distinct; [reflexivity | exact Hnd |].
  intros c _ [].
Qed.

Lemma results_in_configured_order_witness :
  exists results,
    evaluate_classifiers
      (Stub.stub_env [] [("svm", 60); ("knn", 5)]%string)
      ["svm"; "knn"]%string
      (Stub.extract (Stub.dataset 3)) (Stub.extract (Stub.dataset 2)) Stub.fresh
    = (Ok results,
       {| ckpt_file := None;
          trace := [EvLog INFO (MsgTraining "svm"); EvLog INFO (MsgTraining "knn")] |}) /\
    results = [("svm", make_metrics (0, 0, 60)); ("knn", make_metrics (0, 0, 5))]%string.
Proof.
  destruct (results_in_configured_order
              (Stub.stub_env [] [("svm", 60); ("knn", 5)]%string) 5000 Stub.fresh
              ["svm"; "knn"]%string (Stub.dataset 3) (Stub.dataset 2)
              (Stub.extract (Stub.dataset 3)) (Stub.extract (Stub.dataset 2))
              (fun c => (0, 0, if String.eqb c "svm" then 60 else 5)))
    as (results & Heval & _ & _ & _ & Hdistinct); try reflexivity.
  - intros c [<- | [<- | []]]; reflexivity.
  - exists results. split; [exact Heval |].
    apply Hdistinct. repeat constructor; simpl; intuition discriminate.
Defined.

(** ** Interrupts *)

Lemma world_eta (w : world) :
  {| ckpt_file := ckpt_file w; trace := trace w ++ [] |} = w.
Proof. destruct w. cbn. rewrite app_nil_r. reflexivity. Qed.

(** Where a collaborator of lines 190-228 raises, the [try] body raises
    the same, having logged no more than the classifiers it started. *)
Lemma experiment_body_fault_log (E : env) (s : Z) (e : exn) (w : world) :
  stage_fault E s e ->
  exists names,
    experiment_body E s w
    = (Raise e,
       {| ckpt_file := ckpt_file w;
          trace := trace w ++ map (fun c => EvLog INFO (MsgTraining c)) names |}).
Proof.
  intro Hf. unfold experiment_body.
  destruct Hf as [He | clfs He Htr | clfs train He Htr Hte
                  | clfs train test He Htr Hte Hftr
                  | clfs train test train_f He Htr Hte Hftr Hfte
                  | done rest c train test train_f test_f He Htr Hte Hftr Hfte Hdone Hc].
  - exists []. cbn [map]. rewrite world_eta. raise_lift He. reflexivity.
  - exists []. cbn [map]. rewrite world_eta.
    step_lift He. raise_lift Htr. reflexivity.
  - exists []. cbn [map]. rewrite world_eta.
    step_lift He. step_lift Htr. raise_lift Hte. reflexivity.
  - exists []. cbn [map]. rewrite world_eta.
    step_lift He. step_lift Htr. step_lift Hte. cbv zeta.
    raise_lift Hftr. reflexivity.
  - exists []. cbn [map]. rewrite world_eta.
    step_lift He. step_lift Htr. step_lift Hte. cbv zeta.
    step_lift Hftr. raise_lift Hfte. reflexivity.
  - exists (done ++ [c]).
    step_lift He. step_lift Htr. step_lift Hte. cbv zeta.
    step_lift Hftr. step_lift Hfte.
    erewrite bind_raise; [reflexivity |].
    unfold evaluate_classifiers. rewrite foldM_app.
    set (te := fun c' => match train_and_evaluate E c' train_f test_f with
                         | Ok r => r
                         | Raise _ => (0, 0, 0)
                         end).
    assert (Hte' : forall c', In c' done ->
              train_and_evaluate E c' train_f test_f = Ok (te c')).
    { intros c' Hc'. unfold te. destruct (Hdone c' Hc') as [r ->]. reflexivity. }
    rewrite (bind_ok _ _ w _ _
               (evaluate_fold_run E train_f test_f te done [] w Hte')).
    cbn [foldM]. erewrite bind_raise; [reflexivity |].
    unfold bind at 1. cbn. unfold bind, lift. rewrite Hc.
    rewrite map_app, app_assoc. reflexivity.
Qed.

Lemma no_error_log_in_training_lines (names : list string) :
  filter is_error_log (map (fun c => EvLog INFO (MsgTraining c)) names) = [].
Proof. induction names as [| c names IH]; [reflexivity | exact IH]. Qed.

(** X8.  Past the checkpoint gate, a [KeyboardInterrupt] raised by a
    collaborator of lines 190-228 is not caught by [except Exception]:
    [run_cifar100_experiment] raises it, with the checkpoint path
    untouched and without any error record logged, and [main] ends with
    the interrupt uncaught. *)
Theorem keyboard_interrupt_not_caught :
  forall (E : env) (s : Z) (w wv : world),
    verify_checkpoint E (snd (log INFO (MsgStep1 s) w)) = (Ok true, wv) ->
    stage_fault E s KeyboardInterrupt ->
    exists w',
      run_cifar100_experiment E s w = (Raise KeyboardInterrupt, w') /\
      ckpt_file w' = ckpt_file wv /\
      filter is_error_log (events_since wv w') = [] /\
      (forall w00, s = 5000%Z -> main_prelude E w00 = (Ok tt, w) ->
         main E w00 = (Uncaught KeyboardInterrupt, w')).
Proof.
  intros E s w wv Hgate Hfault.
  destruct (experiment_body_fault_log E s KeyboardInterrupt wv Hfault)
    as (names & Hbody).
  exists {| ckpt_file := ckpt_file wv;
            trace := trace wv
                     ++ map (fun c => EvLog INFO (MsgTraining c)) names |}.
  assert (Hrun : run_cifar100_experiment E s w
                 = (Raise KeyboardInterrupt,
                    {| ckpt_file := ckpt_file wv;
                       trace := trace wv
                                ++ map (fun c => EvLog INFO (MsgTraining c)) names |})).
  { rewrite (run_after_gate E s w wv Hgate).
    unfold try_except. rewrite Hbody. reflexivity. }
  split; [exact Hrun |].
  split; [reflexivity |].
  split.
  - rewrite (events_since_app wv _
               (map (fun c => EvLog INFO (MsgTraining c)) names))
      by reflexivity.
    apply no_error_log_in_training_lines.
  - intros w00 -> Hp. unfold main.
    erewrite bind_ok; [| exact Hp]. rewrite Hrun. reflexivity.
Qed.

Lemma keyboard_interrupt_not_caught_witness :
  exists w',
    run_cifar100_experiment
      {| setup_logging := Ok tt;
         get_dataset := fun _ _ => Ok (Stub.dataset 3);
         get_model := Ok tt;
         train_pass := fun _ => Ok tt;
         train_batches := fun _ => 390%nat;
         val_pass := fun _ => Ok 60;
         new_experiment := fun _ => Ok ["svm"]%string;
         extract_features := fun _ => Raise KeyboardInterrupt;
         train_and_evaluate := fun _ _ _ => Ok (0, 0, 60) |}
      5000 (Stub.with_checkpoint Partial)
    = (Raise KeyboardInterrupt, w') /\
    ckpt_file w' = Some Partial.
Proof.
  edestruct (keyboard_interrupt_not_caught
              {| setup_logging := Ok tt;
                 get_dataset := fun _ _ => Ok (Stub.dataset 3);
                 get_model := Ok tt;
                 train_pass := fun _ => Ok tt;
                 train_batches := fun _ => 390%nat;
                 val_pass := fun _ => Ok 60;
                 new_experiment := fun _ => Ok ["svm"]%string;
                 extract_features := fun _ => Raise KeyboardInterrupt;
                 train_and_evaluate := fun _ _ _ => Ok (0, 0, 60) |}
              5000 (Stub.with_checkpoint Partial))
    as (w' & Hrun & Hfile & _).
  - reflexivity.
  - apply (FaultTrainFeatures _ _ _ ["svm"%string] (Stub.dataset 3) (Stub.dataset 3));
      reflexivity.
  - exists w'. split; [exact Hrun | exact Hfile].
Defined.

(** ** Edge cases of the dataset views *)

(** X10.  A cap of [0] disables truncation and both splits are used
    whole; a negative cap empties both views; a cap of 1 to 4 empties
    the test view; and a split no longer than its bound is kept
    whole. *)
Theorem dataset_views_edge_cases :
  forall (A : Type) (subset_size : Z) (train test : list A),
    (subset_size = 0%Z ->
       dataset_views subset_size train test = (train, test)) /\
    ((subset_size < 0)%Z ->
       dataset_views subset_size train test = ([], [])) /\
    ((0 < subset_size < 5)%Z ->
       snd (dataset_views subset_size train test) = []) /\
    ((0 < subset_size)%Z -> (len train <= subset_size)%Z ->
       fst (dataset_views subset_size train test) = train) /\
    ((0 < subset_size)%Z -> (len test <= subset_size / 5)%Z ->
       snd (dataset_views subset_size train test) = test).
Proof.
  intros A subset_size train test.
  split; [intros ->; reflexivity |].
  assert (Hviews : subset_size <> 0%Z ->
            dataset_views subset_size train test
            = (firstn (Z.to_nat (min subset_size (len train))) train,
               firstn (Z.to_nat (min (subset_size / 5) (len test))) test)).
  { intro Hs. unfold dataset_views. apply Z.eqb_neq in Hs. rewrite Hs.
    rewrite !Subset_range_min. reflexivity. }
  split; [| split; [| split]].
  - intro Hneg. rewrite Hviews by lia.
    assert (subset_size / 5 < 0)%Z by (apply Z.div_lt_upper_bound; lia).
    replace (Z.to_nat (min subset_size (len train))) with 0%nat
      by (unfold min, len; lia).
    replace (Z.to_nat (min (subset_size / 5) (len test))) with 0%nat
      by (unfold min, len; lia).
    reflexivity.
  - intro Hs. rewrite Hviews by lia. cbn [snd].
    assert (subset_size / 5 = 0)%Z by (apply Z.div_small; lia).
    replace (Z.to_nat (min (subset_size / 5) (len test))) with 0%nat
      by (unfold min, len; lia).
    reflexivity.
  - intros Hs Hlen. rewrite Hviews by lia. cbn [fst].
    apply firstn_all2. unfold min, len in *. lia.
  - intros Hs Hlen. rewrite Hviews by lia. cbn [snd].
    apply firstn_all2. unfold min, len in *. lia.
Qed.

Lemma dataset_views_edge_cases_witness :
  dataset_views (-3) (Stub.dataset 3) (Stub.dataset 2) = ([], []) /\
  snd (dataset_views 4 (Stub.dataset 3) (Stub.dataset 2)) = [].
Proof.
  destruct (dataset_views_edge_cases sample (-3) (Stub.dataset 3) (Stub.dataset 2))
    as (_ & Hneg & _).
  destruct (dataset_views_edge_cases sample 4 (Stub.dataset 3) (Stub.dataset 2))
    as (_ & _ & Hsmall & _).
  split; [apply Hneg; lia | apply Hsmall; lia].
Defined.

(** X11.  Each view is a prefix of its split, and building the views
    again from the views changes nothing. *)
Theorem dataset_views_prefix_idempotent :
  forall (A : Type) (subset_size : Z) (train test : list A),
    (exists rest_train rest_test,
       train = fst (dataset_views subset_size train test) ++ rest_train /\
       test = snd (dataset_views subset_size train test) ++ rest_test) /\
    dataset_views subset_size
      (fst (dataset_views subset_size train test))
      (snd (dataset_views subset_size train test))
    = dataset_views subset_size train test.
Proof.
  intros A subset_size train test.
  unfold dataset_views.
  destruct (subset_size =? 0)%Z eqn:Hs; cbn [fst snd].
  - split; [exists [], []; rewrite !app_nil_r; split; reflexivity | reflexivity].
  - rewrite !Subset_range_min. split.
    + eexists. eexists. split; symmetry; apply firstn_skipn.
    + f_equal; apply firstn_all2; unfold min, len; rewrite !length_firstn.
      * lia.
      * assert (subset_size / 5 <= subset_size \/ subset_size < 0)%Z
          by (destruct (Z_lt_le_dec subset_size 0);
              [right; assumption
              | left; apply Z.div_le_upper_bound; lia]).
        lia.
Qed.

(** ** From an empty checkpoint path to the exit status *)

Lemma forallb_false_iff {A : Type} (f : A -> bool) (l : list A) :
  forallb f l = false <-> exists x, In x l /\ f x = false.
Proof.
  induction l as [| y l IH]; simpl.
  - split; [discriminate | intros (x & [] & _)].
  - rewrite Bool.andb_false_iff, IH. split.
    + intros [H | (x & Hx & Hf)].
      * exists y. split; [left; reflexivity | exact H].
      * exists x. split; [right; exact Hx | exact Hf].
    + intros (x & [<- | Hx] & Hf).
      * left. exact Hf.
      * right. exists x. split; assumption.
Qed.

(** The gate on an empty path, when the training data and the model
    are built without error: it answers what [train_model] answers. *)
Lemma verify_checkpoint_trains (E : env) (w w2 : world) (ok : bool)
    (d1 d2 : list sample) :
  ckpt_file w = None ->
  get_dataset E true true = Ok d1 ->
  get_dataset E false true = Ok d2 ->
  get_model E = Ok tt ->
  train_model E 200 (snd (log INFO MsgNotFound w)) = (Ok ok, w2) ->
  verify_checkpoint E w
  = (Ok ok, if ok then w2 else snd (log ERROR MsgTrainFailed w2)).
Proof.
  intros Hnone Hd1 Hd2 Hm Htrain.
  unfold verify_checkpoint. unfold bind at 1. unfold path_exists.
  rewrite Hnone. cbn [negb].
  erewrite bind_ok; [| reflexivity].
  step_lift Hd1. step_lift Hd2. step_lift Hm.
  erewrite bind_ok; [| exact Htrain].
  destruct ok; reflexivity.
Qed.

Lemma main_prelude_file (E : env) (w w0 : world) :
  main_prelude E w = (Ok tt, w0) -> ckpt_file w0 = ckpt_file w.
Proof.
  unfold main_prelude, bind, lift, emit.
  destruct (setup_logging E) as [[] | e]; intro H; inversion H. reflexivity.
Qed.

(** X12.  Started with nothing at the checkpoint path, with no
    collaborator raising and with a first training stream that is not
    empty, the process exits with status 0 exactly when some epoch's
    validation accuracy exceeds [50] and some configured classifier's
    accuracy is not below [10]; otherwise it exits with status 1.  On exit 0 the path holds a record with accuracy above
    [50]. *)
Theorem exit_status_end_to_end :
  forall (E : env) (a : nat -> Q) (te : string -> Q * Q * Q) (w w0 : world)
         (d1 d2 : list sample) (clfs : list string) (train test : list sample)
         (train_f test_f : extracted),
    ckpt_file w = None ->
    main_prelude E w = (Ok tt, w0) ->
    get_dataset E true true = Ok d1 ->
    get_dataset E false true = Ok d2 ->
    get_model E = Ok tt ->
    (forall i, (i < 200)%nat ->
       train_pass E i = Ok tt /\ val_pass E i = Ok (a i)) ->
    (0 < train_batches E 0)%nat ->
    new_experiment E 5000 = Ok clfs ->
    get_dataset E true false = Ok train ->
    get_dataset E false false = Ok test ->
    extract_features E (fst (dataset_views 5000 train test)) = Ok train_f ->
    extract_features E (snd (dataset_views 5000 train test)) = Ok test_f ->
    (forall c, In c clfs -> train_and_evaluate E c train_f test_f = Ok (te c)) ->
    (exit_status (fst (main E w)) = 0%Z <->
     (exists i, (i < 200)%nat /\ 50 < a i) /\
     (exists c, In c clfs /\ ~ accuracy (make_metrics (te c)) < 10)) /\
    (exit_status (fst (main E w)) = 0%Z \/ exit_status (fst (main E w)) = 1%Z) /\
    (exit_status (fst (main E w)) = 0%Z ->
     exists r, ckpt_file (snd (main E w)) = Some (Saved r) /\ 50 < acc r).
Proof.
  intros E a te w w0 d1 d2 clfs train test train_f test_f
         Hnone Hp Hd1 Hd2 Hm Hok Hb He Htr Hte Hftr Hfte Hclf.
  pose proof (main_prelude_file E w w0 Hp) as Hfile0.
  set (w1 := snd (log INFO (MsgStep1 5000) w0)).
  assert (Hnone1 : ckpt_file w1 = None) by (cbn; rewrite Hfile0; exact Hnone).
  destruct (train_model_selects E a 200 (snd (log INFO MsgNotFound w1)) Hok
              (fun _ => Hb))
    as (st & w2 & Htrain & Hcases).
  assert (Hverdict : Qgtb (best_acc st) 50 = true <->
                     exists i, (i < 200)%nat /\ 50 < a i).
  { unfold Qgtb. rewrite Qltb_lt.
    destruct Hcases as [(Hbest & _ & Hle) | (r & Hbest & _ & Hsel)].
    - rewrite Hbest. split.
      + intro H. discriminate H.
      + intros (i & Hi & H50). exfalso.
        apply (Qlt_irrefl 50). eapply Qlt_le_trans; [exact H50 |].
        eapply Qle_trans; [apply Hle; exact Hi | discriminate].
    - rewrite Hbest. destruct Hsel as (Hlt & Hacc & _ & _ & _ & Hle). split.
      + intro H. exists (epoch r). split; [exact Hlt | rewrite <- Hacc; exact H].
      + intros (i & Hi & H50). eapply Qlt_le_trans; [exact H50 | apply Hle; exact Hi]. }
  pose proof (verify_checkpoint_trains E w1 w2 _ d1 d2 Hnone1 Hd1 Hd2 Hm Htrain)
    as Hgate.
  destruct (Qgtb (best_acc st) 50) eqn:Hgt.
  - (* the training floor is met *)
    destruct (experiment_body_ok E 5000 w2 clfs train test train_f test_f te
                He Htr Hte Hftr Hfte Hclf)
      as (results & w' & Hbody & Hfile' & _ & Hvalues).
    assert (Hrun : run_cifar100_experiment E 5000 w0
                   = (Ok (negb (all_below_floor results)), w')).
    { rewrite (run_after_gate E 5000 w0 w2 Hgate).
      apply try_except_ok. exact Hbody. }
    assert (Hmain : main E w
                    = (if negb (all_below_floor results)
                       then Returned else SysExit 1, w')).
    { unfold main. erewrite bind_ok; [| exact Hp]. rewrite Hrun.
      destruct (negb (all_below_floor results)); reflexivity. }
    assert (Hgood : all_below_floor results = false <->
                    exists c, In c clfs /\ ~ accuracy (make_metrics (te c)) < 10).
    { unfold all_below_floor. rewrite forallb_false_iff. split.
      - intros (m & Hm' & Hf). apply Hvalues in Hm'.
        destruct Hm' as (c & Hc & ->). exists c.
        split; [exact Hc | apply Qle_not_lt; apply Qltb_ge; exact Hf].
      - intros (c & Hc & Hf). exists (make_metrics (te c)). split.
        + apply Hvalues. exists c. split; [exact Hc | reflexivity].
        + apply Qltb_ge. apply Qnot_lt_le. exact Hf. }
    assert (Hrec : exists r, ckpt_file w' = Some (Saved r) /\ 50 < acc r).
    { destruct Hcases as [(Hbest & _) | (r & Hbest & Hfile2 & _)].
      - rewrite Hbest in Hgt. discriminate Hgt.
      - exists r. split; [rewrite Hfile'; exact Hfile2 |].
        rewrite <- Hbest. apply Qltb_lt. exact Hgt. }
    rewrite Hmain. cbn [fst snd].
    destruct (all_below_floor results); cbn [negb exit_status].
    + split; [| split].
      * split; [discriminate |].
        intros [_ Hc]. apply Hgood in Hc. discriminate Hc.
      * right. reflexivity.
      * discriminate.
    + split; [| split].
      * split; [| reflexivity].
        intros _. split; [apply Hverdict; reflexivity | apply Hgood; reflexivity].
      * left. reflexivity.
      * intros _. exact Hrec.
  - (* the training floor is missed *)
    assert (Hrun : run_cifar100_experiment E 5000 w0
                   = (Ok false, snd (log ERROR MsgTrainFailed w2))).
    { unfold run_cifar100_experiment.
      erewrite bind_ok; [| reflexivity].
      erewrite bind_ok; [| exact Hgate]. reflexivity. }
    assert (Hmain : main E w = (SysExit 1, snd (log ERROR MsgTrainFailed w2))).
    { unfold main. erewrite bind_ok; [| exact Hp]. rewrite Hrun. reflexivity. }
    rewrite Hmain. cbn [fst snd exit_status].
    split; [| split].
    + split; [discriminate |].
      intros [Hc _]. apply Hverdict in Hc. discriminate Hc.
    + right. reflexivity.
    + discriminate.
Qed.

Lemma exit_status_end_to_end_witness :
  exit_status
    (fst (main (Stub.stub_env (repeat 60 200) [("svm", 5); ("knn", 10)]%string)
               Stub.fresh)) = 0%Z.
Proof.
  destruct (exit_status_end_to_end
              (Stub.stub_env (repeat 60 200) [("svm", 5); ("knn", 10)]%string)
              (fun _ => 60)
              (fun c => (0, 0, if String.eqb c "svm" then 5 else 10))
              Stub.fresh
              (snd (main_prelude
                      (Stub.stub_env (repeat 60 200) [("svm", 5); ("knn", 10)]%string)
                      Stub.fresh))
              (Stub.dataset 3) (Stub.dataset 2) ["svm"; "knn"]%string
              (Stub.dataset 3) (Stub.dataset 2)
              (Stub.extract (Stub.dataset 3)) (Stub.extract (Stub.dataset 2)))
    as ([_ Hzero] & _);
    [reflexivity | reflexivity | reflexivity | reflexivity | reflexivity
    | | | reflexivity | reflexivity | reflexivity | reflexivity | reflexivity | |].
  - intros i Hi. split; [reflexivity |].
    cbn [Stub.stub_env val_pass]. rewrite (nth_error_repeat 60 Hi). reflexivity.
  - cbn. lia.
  - intros c [<- | [<- | []]]; reflexivity.
  - apply Hzero. split.
    + exists 0%nat. split; [lia | reflexivity].
    + exists "knn"%string. split; [right; left; reflexivity |].
      intro H. vm_compute in H. discriminate H.
Defined.

(** ** The learning rate over a run *)

Ltac rate_value e :=
  let A1 := fresh "A" in
  let A2 := fresh "A" in
  let A3 := fresh "A" in
  let A4 := fresh "A" in
  destruct (rate_at_cases e) as (A1 & A2 & A3 & A4);
  destruct (Nat.lt_ge_cases e 60);
  [rewrite A1 by lia
  | destruct (Nat.lt_ge_cases e 120);
    [rewrite A2 by lia
    | destruct (Nat.lt_ge_cases e 160);
      [rewrite A3 by lia | rewrite A4 by lia]]];
  clear A1 A2 A3 A4.

Lemma rate_at_positive (e : nat) : PrimFloat.ltb 0%float (rate_at e) = true.
Proof. rate_value e; reflexivity. Qed.

Lemma rate_at_antitone (i j : nat) :
  (i <= j)%nat -> PrimFloat.leb (rate_at j) (rate_at i) = true.
Proof.
  intro Hij. rate_value i; rate_value j; try lia; reflexivity.
Qed.

Lemma rate_at_drops (e : nat) :
  (S e = 60 \/ S e = 120 \/ S e = 160)%nat ->
  PrimFloat.ltb (rate_at (S e)) (rate_at e) = true.
Proof.
  intro H. rate_value e; rate_value (S e); try lia; reflexivity.
Qed.

(** X13.  In a run of the epoch loop that returned, the training pass
    of epoch [e] runs under the rate [rate_at e]; over the epochs the
    rate is positive and never increases; on entering epochs 60, 120
    and 160 it is multiplied in binary64 by [gamma = 0.2], which makes
    it strictly smaller, and on entering any other epoch it stays as it
    is. *)
Theorem learning_rate_never_increases :
  forall (E : env) (epochs : nat) (w w' : world) (st : train_state),
    epoch_loop E epochs w = (Ok st, w') ->
    train_rates (events_since w w') = map rate_at (seq 0 epochs) /\
    (forall i j, (i <= j)%nat ->
       PrimFloat.ltb 0%float (rate_at j) = true /\
       PrimFloat.leb (rate_at j) (rate_at i) = true) /\
    (forall e,
       ((S e = 60 \/ S e = 120 \/ S e = 160)%nat ->
          rate_at (S e) = (rate_at e * 0.2)%float /\
          PrimFloat.ltb (rate_at (S e)) (rate_at e) = true) /\
       (~ (S e = 60 \/ S e = 120 \/ S e = 160)%nat ->
          rate_at (S e) = rate_at e)).
Proof.
  intros E epochs w w' st Hrun.
  split; [exact (proj2 (schedule_run E epochs w w' st Hrun)) |].
  split.
  - intros i j Hij. split; [apply rate_at_positive | apply rate_at_antitone; exact Hij].
  - intro e. destruct (rate_at_step e) as [Hat Hoff]. split.
    + intro H. split; [apply Hat; exact H | apply rate_at_drops; exact H].
    + exact Hoff.
Qed.

Lemma learning_rate_never_increases_witness :
  exists st w',
    epoch_loop (Stub.stub_env (repeat 40 200) []) 200 Stub.fresh = (Ok st, w') /\
    nth_error (train_rates (events_since Stub.fresh w')) 59 = Some 0.1%float /\
    nth_error (train_rates (events_since Stub.fresh w')) 60
      = Some 0.020000000000000004%float /\
    nth_error (train_rates (events_since Stub.fresh w')) 199
      = Some 0.0008000000000000003%float.
Proof.
  remember (epoch_loop (Stub.stub_env (repeat 40 200) []) 200 Stub.fresh)
    as out eqn:Hout.
  assert (Hfst : exists st, fst out = Ok st).
  { rewrite Hout. vm_compute. eexists. reflexivity. }
  destruct out as [r w']. destruct Hfst as [st Hst]. cbn [fst] in Hst. subst r.
  destruct (learning_rate_never_increases (Stub.stub_env (repeat 40 200) []) 200
              Stub.fresh w' st (eq_sym Hout)) as [Hrates _].
  exists st, w'. split; [reflexivity |].
  rewrite Hrates. repeat split; reflexivity.
Defined.

(** ** The sequence of records a run writes *)

Lemma StronglySorted_snoc {A : Type} (R : A -> A -> Prop) (l : list A) (y : A) :
  StronglySorted R l -> Forall (fun x => R x y) l -> StronglySorted R (l ++ [y]).
Proof.
  induction 1 as [| x l Hsorted IH Hx]; intro Hall; simpl.
  - constructor; constructor.
  - inversion Hall; subst. constructor.
    + apply IH. assumption.
    + apply Forall_app. split; [exact Hx | constructor; [assumption | constructor]].
Qed.

(** X14.  In a run of [train_model] that returned, with validation
    accuracies [a 0 .. a (n-1)], every record written has a strictly
    higher accuracy and a later epoch than the records written before
    it; each carries the accuracy of the epoch it names; and at most
    one record is written per epoch. *)
Theorem checkpoint_writes_strictly_improve :
  forall (E : env) (a : nat -> Q) (n : nat) (w w' : world) (ok : bool),
    train_model E n w = (Ok ok, w') ->
    (forall i, (i < n)%nat -> val_pass E i = Ok (a i)) ->
    StronglySorted (fun r r' => acc r < acc r' /\ (epoch r < epoch r')%nat)
                   (written (events_since w w')) /\
    Forall (fun r => (epoch r < n)%nat /\ acc r = a (epoch r))
           (written (events_since w w')) /\
    (List.length (written (events_since w w')) <= n)%nat.
Proof.
  intros E a n w w' ok Hrun Ha.
  destruct (train_model_completed E n w w' ok Hrun) as [Hok0 Hb].
  assert (Hok : forall i, (i < n)%nat ->
            train_pass E i = Ok tt /\ val_pass E i = Ok (a i)).
  { intros i Hi. split; [apply (Hok0 i Hi) | apply Ha; exact Hi]. }
  destruct (epoch_loop_invariant E a n (snd (log INFO MsgTrainingFromScratch w))
              (fun i st wi =>
                 exists tr,
                   trace wi = trace (snd (log INFO MsgTrainingFromScratch w)) ++ tr /\
                   StronglySorted
                     (fun r r' => acc r < acc r' /\ (epoch r < epoch r')%nat)
                     (written tr) /\
                   Forall (fun r => acc r <= best_acc st /\ (epoch r < i)%nat /\
                                    acc r = a (epoch r))
                          (written tr) /\
                   (List.length (written tr) <= i)%nat) Hok Hb)
    as (st & w1 & Hloop & (tr & Htr & Hsorted & Hall & Hlen) & _).
  - exists []. split; [symmetry; apply app_nil_r |].
    split; [constructor | split; [constructor | apply Nat.le_refl]].
  - intros i st wi c _ (tr & Htr & Hsorted & Hall & Hlen).
    exists (tr ++ epoch_events st i (a i) c).
    split; [simpl; rewrite Htr, app_assoc; reflexivity |].
    rewrite written_app, written_epoch_events.
    pose proof (next_state_best_le st (train_batches E i) (a i)) as Hmono.
    destruct (Qgtb (a i) (best_acc st)) eqn:Hgt.
    + pose proof Hgt as Hgtb. apply Qltb_lt in Hgt. split; [| split].
      * apply StronglySorted_snoc; [exact Hsorted |].
        eapply Forall_impl; [| exact Hall].
        intros r (Hle & Hlt & _). cbn [epoch_checkpoint acc epoch]. split.
        -- eapply Qle_lt_trans; [exact Hle | exact Hgt].
        -- exact Hlt.
      * apply Forall_app. split.
        -- eapply Forall_impl; [| exact Hall].
           intros r (Hle & Hlt & Hacc).
           split; [eapply Qle_trans; [exact Hle | exact Hmono] |].
           split; [lia | exact Hacc].
        -- constructor; [| constructor]. cbn [epoch_checkpoint acc epoch].
           split; [| split; [lia | reflexivity]].
           unfold next_state. cbn [best_acc].
           rewrite Hgtb. apply Qle_refl.
      * rewrite length_app. simpl. lia.
    + rewrite app_nil_r. split; [exact Hsorted | split; [| lia]].
      eapply Forall_impl; [| exact Hall].
      intros r (Hle & Hlt & Hacc).
      split; [eapply Qle_trans; [exact Hle | exact Hmono] |].
      split; [lia | exact Hacc].
  - pose proof (train_model_unfold E n w w1 st Hloop) as Hrun2.
    assert (Hw' : w' = snd (log INFO (MsgBestAccuracy (best_acc st)) w1))
      by congruence.
    rewrite Hw'.
    assert (Htrace : trace (snd (log INFO (MsgBestAccuracy (best_acc st)) w1))
                     = trace w ++ [EvLog INFO MsgTrainingFromScratch] ++ tr
                       ++ [EvLog INFO (MsgBestAccuracy (best_acc st))]).
    { cbn. rewrite Htr. cbn. rewrite <- !app_assoc. reflexivity. }
    destruct (train_model_events _ _ _ _ Htrace) as [_ Hw]. rewrite Hw.
    split; [exact Hsorted |].
    split; [| exact Hlen].
    eapply Forall_impl; [| exact Hall].
    intros r (_ & Hlt & Hacc). split; assumption.
Qed.

Lemma checkpoint_writes_strictly_improve_witness :
  exists ok w',
    train_model (Stub.stub_env [40; 30; 55; 55] []) 4 Stub.fresh = (Ok ok, w') /\
    StronglySorted (fun r r' => acc r < acc r' /\ (epoch r < epoch r')%nat)
                   (written (events_since Stub.fresh w')) /\
    map acc (written (events_since Stub.fresh w')) = [40; 55].
Proof.
  remember (train_model (Stub.stub_env [40; 30; 55; 55] []) 4 Stub.fresh)
    as out eqn:Hout.
  assert (Hfst : exists ok, fst out = Ok ok).
  { rewrite Hout. vm_compute. eexists. reflexivity. }
  destruct out as [res w']. destruct Hfst as [ok Hres]. cbn [fst] in Hres. subst res.
  destruct (checkpoint_writes_strictly_improve
              (Stub.stub_env [40; 30; 55; 55] [])
              (fun i => nth i [40; 30; 55; 55] 0) 4%nat Stub.fresh w' ok
              (eq_sym Hout))
    as (Hsorted & _ & _).
  - intros i Hi. destruct i as [| [| [| [| i]]]]; [| | | | lia]; reflexivity.
  - exists ok, w'. split; [reflexivity |]. split; [exact Hsorted |].
    cbv in Hout. inversion Hout. reflexivity.
Defined.
